(** * rest-api-server: the authentication and authorization core

    A shallow embedding of the Express application: the in-memory [User]
    model, the [/api/auth] and [/api/users] routers, the error-mapping
    middleware, and the properties the specification states about them.

    JavaScript objects are finite maps from property names to values, the
    spread [{...a, ...b}] is a right-biased union and the rest pattern
    [{password, ...rest}] deletes a key.  The module-level [users] array
    and [nextUserId] counter are threaded explicitly as a [store]. *)

From Stdlib Require Import ZArith String Ascii List Bool Lia.
From stdpp Require Import gmap strings list fin_maps.

Local Open Scope string_scope.
Local Open Scope list_scope.
Local Open Scope Z_scope.

(** ** JavaScript values *)

(** Numbers are restricted to integers and NaN: every number the routes
    compute with is an id, a counter, a length, or a result of [parseInt].
    A fractional number in a request body has no representation here, nor
    has Infinity.  A string is held as the bytes of its UTF-8 encoding. *)
#[warnings="-register-all"]
Inductive value : Type :=
| VUndef
| VNull
| VBool (b : bool)
| VNum (n : Z)
| VNaN
| VStr (s : string)
| VObj (o : gmap string value)
| VArr (l : list value).

Abbreviation obj := (gmap string value).

(** [o.k]: a missing property reads as [undefined]. *)
Definition prop (o : obj) (k : string) : value := default VUndef (o !! k).

(** [a === b].  Objects and arrays compare by reference; the two sides
    of every comparison in the routes come from different requests or from
    the store and a request, so they are never the same reference. *)
Definition strict_eq (a b : value) : bool :=
  match a, b with
  | VUndef, VUndef => true
  | VNull, VNull => true
  | VBool x, VBool y => Bool.eqb x y
  | VNum x, VNum y => Z.eqb x y
  | VStr x, VStr y => String.eqb x y
  | _, _ => false
  end.

(** Truthiness, as used by [if (x)], [!x], [x || d] and [x && y]. *)
Definition truthy (v : value) : bool :=
  match v with
  | VUndef | VNull | VNaN => false
  | VBool b => b
  | VNum n => negb (Z.eqb n 0)
  | VStr s => negb (String.eqb s "")
  | VObj _ | VArr _ => true
  end.

(** [a || b] *)
Definition js_or (a b : value) : value := if truthy a then a else b.

(** ** [parseInt] *)

(** The white space [parseInt] skips: TAB, LF, VT, FF, CR and SP, which
    take one byte, ... *)
Definition is_ws (a : ascii) : bool :=
  let n := nat_of_ascii a in
  ((9 <=? n)%nat && (n <=? 13)%nat) || (n =? 32)%nat.

(** ... U+00A0, which takes the two bytes C2 A0, ... *)
Definition is_ws2 (a b : ascii) : bool :=
  (nat_of_ascii a =? 194)%nat && (nat_of_ascii b =? 160)%nat.

(** ... and, in three bytes, U+1680 (E1 9A 80), U+2000 to U+200A, the
    line and paragraph separators U+2028 and U+2029, U+202F (all E2 80
    xx), U+205F (E2 81 9F), U+3000 (E3 80 80) and U+FEFF (EF BB BF). *)
Definition is_ws3 (a b c : ascii) : bool :=
  let x := nat_of_ascii a in
  let y := nat_of_ascii b in
  let z := nat_of_ascii c in
  ((x =? 225) && (y =? 154) && (z =? 128))%nat
  || ((x =? 226) && (y =? 128)
      && (((128 <=? z) && (z <=? 138)) || (z =? 168) || (z =? 169) || (z =? 175)))%nat
  || ((x =? 226) && (y =? 129) && (z =? 159))%nat
  || ((x =? 227) && (y =? 128) && (z =? 128))%nat
  || ((x =? 239) && (y =? 187) && (z =? 191))%nat.

Fixpoint skip_ws (s : string) : string :=
  match s with
  | String a r1 =>
      if is_ws a then skip_ws r1
      else
        match r1 with
        | String b r2 =>
            if is_ws2 a b then skip_ws r2
            else
              match r2 with
              | String c r3 => if is_ws3 a b c then skip_ws r3 else s
              | EmptyString => s
              end
        | EmptyString => s
        end
  | EmptyString => s
  end.

(** The number a non-negative integer becomes as an IEEE double: itself
    below 2^53, beyond that rounded to 53 significant bits, ties to
    even. *)
Definition to_double (n : Z) : Z :=
  if n <? 2 ^ 53 then n
  else
    let e := Z.log2 n - 52 in
    let q := Z.shiftr n e in
    let r := n - Z.shiftl q e in
    let half := Z.shiftl 1 (e - 1) in
    let q' := if (half <? r) || ((r =? half) && Z.odd q) then q + 1 else q in
    Z.shiftl q' e.

Definition digit_of (radix : Z) (a : ascii) : option Z :=
  let n := Z.of_nat (nat_of_ascii a) in
  let d :=
    if (48 <=? n) && (n <=? 57) then Some (n - 48)
    else if (97 <=? n) && (n <=? 122) then Some (n - 87)
    else if (65 <=? n) && (n <=? 90) then Some (n - 55)
    else None in
  match d with
  | Some v => if v <? radix then Some v else None
  | None => None
  end.

(** The longest prefix of digits; [None] when there is no digit at all. *)
Fixpoint digits (radix : Z) (s : string) (acc : option Z) : option Z :=
  match s with
  | String a r =>
      match digit_of radix a with
      | Some d => digits radix r (Some (radix * default 0 acc + d))
      | None => acc
      end
  | EmptyString => acc
  end.

Definition strip_sign (s : string) : Z * string :=
  match s with
  | String "-" r => (-1, r)
  | String "+" r => (1, r)
  | _ => (1, s)
  end.

Definition strip_radix (s : string) : Z * string :=
  match s with
  | String "0" (String "x" r) => (16, r)
  | String "0" (String "X" r) => (16, r)
  | _ => (10, s)
  end.

(** [parseInt(s)] on a string, without a radix argument: leading white
    space, a sign, a hexadecimal prefix, then as many digits as there
    are; the result is the double nearest to what the digits say.  (From
    2^1024 on JavaScript says Infinity; here the result stays a number
    larger than any id, length or index.) *)
Definition parseInt_string (s : string) : value :=
  let '(sign, s1) := strip_sign (skip_ws s) in
  let '(radix, s2) := strip_radix s1 in
  match digits radix s2 None with
  | Some n => VNum (sign * to_double n)
  | None => VNaN
  end.

(** [parseInt(v)] converts its argument to a string first.  An integer
    prints as its decimal numeral and parses back to itself (below 1e21,
    where the exponent form begins; no id, counter or length of this
    program gets there); [undefined],
    [null], booleans and plain objects print as words; an array prints its
    elements separated by commas, so only its first element counts. *)
Fixpoint parseInt (v : value) : value :=
  match v with
  | VStr s => parseInt_string s
  | VNum n => VNum n
  | VArr (x :: _) =>
      match x with
      | VUndef | VNull => VNaN
      | _ => parseInt x
      end
  | _ => VNaN
  end.

(** ** Arrays *)

(** [Array.prototype.findIndex]; [None] stands for [-1]. *)
Fixpoint findIndex {A} (p : A -> bool) (l : list A) : option nat :=
  match l with
  | [] => None
  | x :: r => if p x then Some O else S <$> findIndex p r
  end.

(** A relative index of [slice]: negative indices count from the end. *)
Definition slice_index (len k : Z) : Z :=
  if k <? 0 then Z.max (len + k) 0 else Z.min k len.

(** [Array.prototype.slice(start, end)] *)
Definition js_slice {A} (l : list A) (s e : Z) : list A :=
  let len := Z.of_nat (length l) in
  let k := slice_index len s in
  let f := slice_index len e in
  take (Z.to_nat (f - k)) (drop (Z.to_nat k) l).

(** [Math.ceil(a / b)] for integers [a] and [b <> 0]. *)
Definition ceil_div (a b : Z) : Z := - ((- a) / b).

(** ** The store and the [User] model *)

Record store : Type := mkStore {
  users : list obj;
  nextUserId : Z
}.

(** [const { password, ...userWithoutPassword } = user] *)
Definition withoutPassword (user : obj) : obj := delete "password" user.

(** The array the module starts with; [boot] is the load-time
    [new Date().toISOString()]. *)
Definition admin_record (boot : string) : obj :=
  <["id" := VNum 1]>
  (<["username" := VStr "admin"]>
  (<["email" := VStr "admin@example.com"]>
  (<["password" := VStr "$2a$10$XOPbrlUPQdwdJUpSrIF6X.LbE14qsMmKGhM1A8W9iqaG3vv1BD7WS"]>
  (<["role" := VStr "admin"]>
  (<["createdAt" := VStr boot]> ∅))))).

Definition initial_store (boot : string) : store :=
  {| users := [admin_record boot]; nextUserId := 2 |}.

Module User.

Definition findAll (st : store) : list obj :=
  map withoutPassword (users st).

Definition has_id (id : value) (u : obj) : bool :=
  strict_eq (prop u "id") (parseInt id).

Definition findById (id : value) (st : store) : option obj :=
  match List.find (has_id id) (users st) with
  | None => None
  | Some user => Some (withoutPassword user)
  end.

Definition findByEmail (email : value) (st : store) : option obj :=
  List.find (fun u => strict_eq (prop u "email") email) (users st).

Definition findByUsername (username : value) (st : store) : option obj :=
  List.find (fun u => strict_eq (prop u "username") username) (users st).

(** [{ id: nextUserId++, ...userData, role: userData.role || 'user',
      createdAt: now }], pushed onto the array. *)
Definition create (userData : obj) (now : string) (st : store) : obj * store :=
  let newUser :=
    <["createdAt" := VStr now]>
    (<["role" := js_or (prop userData "role") (VStr "user")]>
    (userData ∪ {["id" := VNum (nextUserId st)]})) in
  (withoutPassword newUser,
   {| users := users st ++ [newUser]; nextUserId := nextUserId st + 1 |}).

(** [{ ...users[i], ...userData, updatedAt: now }] written back at the
    index found. *)
Definition updateById (id : value) (userData : obj) (now : string)
    (st : store) : option obj * store :=
  match findIndex (has_id id) (users st) with
  | None => (None, st)
  | Some userIndex =>
      match users st !! userIndex with
      | None => (None, st)
      | Some old =>
          let new := <["updatedAt" := VStr now]> (userData ∪ old) in
          (Some (withoutPassword new),
           {| users := <[userIndex := new]> (users st);
              nextUserId := nextUserId st |})
      end
  end.

Definition deleteById (id : value) (st : store) : bool * store :=
  match findIndex (has_id id) (users st) with
  | None => (false, st)
  | Some userIndex =>
      (true, {| users := delete userIndex (users st);
                nextUserId := nextUserId st |})
  end.

Definition has_role (r : string) (u : obj) : bool :=
  strict_eq (prop u "role") (VStr r).

Definition getUserStats (st : store) : obj :=
  <["totalUsers" := VNum (Z.of_nat (length (users st)))]>
  (<["adminUsers" := VNum (Z.of_nat (length (List.filter (has_role "admin") (users st))))]>
  (<["regularUsers" := VNum (Z.of_nat (length (List.filter (has_role "user") (users st))))]> ∅)).

End User.

(** ** Requests, responses and the collaborators outside the model *)

Record response : Type := mkResponse {
  status : value;
  body : value
}.

(** [res.status(code).json(b)] *)
Definition send (code : Z) (b : value) : response :=
  {| status := VNum code; body := b |}.

(** [{ error, message }] *)
Definition error_body (error message : string) : value :=
  VObj (<["error" := VStr error]> (<["message" := VStr message]> ∅)).

Record request : Type := mkRequest {
  req_headers : obj;
  req_params : obj;
  req_query : obj;
  req_body : obj;
  req_user : obj
}.

Definition with_params (ps : obj) (req : request) : request :=
  {| req_headers := req_headers req; req_params := ps;
     req_query := req_query req; req_body := req_body req;
     req_user := req_user req |}.

Definition with_user (u : obj) (req : request) : request :=
  {| req_headers := req_headers req; req_params := req_params req;
     req_query := req_query req; req_body := req_body req;
     req_user := u |}.

(** What one call draws from outside: the clock read by
    [new Date().toISOString()] and the salt [bcrypt.hash] generates. *)
Record env : Type := mkEnv {
  env_now : string;
  env_salt : string
}.

(** A middleware either answers the request itself or passes a (possibly
    rewritten) request on to the next function of the chain. *)
Definition middleware : Type := request -> response + request.

Definition handler : Type := request -> env -> store -> response * store.

(** The libraries and the two middleware modules the routers require:
    bcryptjs, jsonwebtoken (with the configured secret and expiry),
    [middleware/auth] and [middleware/validation].  Each [validate*] field
    stands for the validation chain followed by [handleValidation]. *)
Record platform : Type := mkPlatform {
  bcrypt_hash : string -> string -> string;
  bcrypt_compare : string -> string -> bool;
  jwt_sign : string -> obj -> option string;
  authenticateToken : middleware;
  validateRegister : middleware;
  validateLogin : middleware;
  validateUserUpdate : middleware
}.

(** [m, h] in a route definition. *)
Definition through (m : middleware) (h : handler) : handler :=
  fun req e st =>
    match m req with
    | inl r => (r, st)
    | inr req' => h req' e st
    end.

Section Routes.

Context (P : platform).

(** [await bcrypt.hash(password, 10)]; bcryptjs rejects an argument
    that is not a string, which the route's [catch] turns into a 500. *)
Definition hash (e : env) (password : value) : option value :=
  match password with
  | VStr p => Some (VStr (bcrypt_hash P (env_salt e) p))
  | _ => None
  end.

(** [await bcrypt.compare(password, user.password)] *)
Definition compare (password stored : value) : option bool :=
  match password, stored with
  | VStr p, VStr h => Some (bcrypt_compare P p h)
  | _, _ => None
  end.

(** [jwt.sign({ userId: u.id, username: u.username, role: u.role }, ...)] *)
Definition sign (e : env) (u : obj) : option string :=
  jwt_sign P (env_now e)
    (<["userId" := prop u "id"]>
    (<["username" := prop u "username"]>
    (<["role" := prop u "role"]> ∅))).

(** *** routes/auth.js *)

Definition auth_response (message token : string) (user : obj) : value :=
  VObj (<["message" := VStr message]>
       (<["token" := VStr token]>
       (<["user" := VObj user]> ∅))).

Definition post_register : handler := fun req e st =>
  let username := prop (req_body req) "username" in
  let email := prop (req_body req) "email" in
  let password := prop (req_body req) "password" in
  let failed := send 500 (error_body "Server error"
                  "An error occurred during registration") in
  match User.findByEmail email st with
  | Some _ =>
      (send 400 (error_body "User already exists"
                   "A user with this email already exists"), st)
  | None =>
  match User.findByUsername username st with
  | Some _ =>
      (send 400 (error_body "User already exists"
                   "A user with this username already exists"), st)
  | None =>
  match hash e password with
  | None => (failed, st)
  | Some hashedPassword =>
      let userData :=
        <["username" := username]>
        (<["email" := email]>
        (<["password" := hashedPassword]> ∅)) in
      let '(newUser, st') := User.create userData (env_now e) st in
      match sign e newUser with
      | None => (failed, st')
      | Some token =>
          (send 201 (auth_response "User registered successfully"
                       token newUser), st')
      end
  end end end.

Definition invalid_credentials : response :=
  send 401 (error_body "Invalid credentials" "Invalid email or password").

Definition post_login : handler := fun req e st =>
  let email := prop (req_body req) "email" in
  let password := prop (req_body req) "password" in
  let failed := send 500 (error_body "Server error"
                  "An error occurred during login") in
  match User.findByEmail email st with
  | None => (invalid_credentials, st)
  | Some user =>
  match compare password (prop user "password") with
  | None => (failed, st)
  | Some false => (invalid_credentials, st)
  | Some true =>
      match sign e user with
      | None => (failed, st)
      | Some token =>
          (send 200 (auth_response "Login successful" token
                       (withoutPassword user)), st)
      end
  end end.

Definition get_me : handler := fun req e st =>
  match User.findById (prop (req_user req) "userId") st with
  | None =>
      (send 404 (error_body "User not found" "User profile not found"), st)
  | Some user => (send 200 (VObj user), st)
  end.

(** *** routes/users.js *)

Definition forbidden (message : string) : response :=
  send 403 (error_body "Forbidden" message).

Definition user_not_found : response :=
  send 404 (error_body "User not found"
              "User with the specified ID does not exist").

(** [req.user.role !== 'admin'] *)
Definition not_admin (req : request) : bool :=
  negb (strict_eq (prop (req_user req) "role") (VStr "admin")).

(** [req.user.userId !== parseInt(id)] *)
Definition not_owner (req : request) (id : value) : bool :=
  negb (strict_eq (prop (req_user req) "userId") (parseInt id)).

(** [parseInt(q) || d]: [parseInt] yields a number or NaN, of which 0
    and NaN are falsy. *)
Definition int_or (q : value) (d : Z) : Z :=
  match parseInt q with
  | VNum n => if n =? 0 then d else n
  | _ => d
  end.

Definition users_page (us : list obj) (page limit : Z) : value :=
  let startIndex := (page - 1) * limit in
  let endIndex := page * limit in
  let paginatedUsers := js_slice us startIndex endIndex in
  let total := Z.of_nat (length us) in
  VObj (<["users" := VArr (map VObj paginatedUsers)]>
       (<["pagination" :=
            VObj (<["page" := VNum page]>
                 (<["limit" := VNum limit]>
                 (<["total" := VNum total]>
                 (<["totalPages" := VNum (ceil_div total limit)]> ∅))))]> ∅)).

Definition get_users : handler := fun req e st =>
  if not_admin req then (forbidden "Admin access required", st)
  else
    let page := int_or (prop (req_query req) "page") 1 in
    let limit := int_or (prop (req_query req) "limit") 10 in
    (send 200 (users_page (User.findAll st) page limit), st).

Definition get_user_by_id : handler := fun req e st =>
  let id := prop (req_params req) "id" in
  if not_admin req && not_owner req id
  then (forbidden "You can only access your own profile", st)
  else
    match User.findById id st with
    | None => (user_not_found, st)
    | Some user => (send 200 (VObj user), st)
    end.

(** The three steps that fill [updateData]; [inl] is an early
    [return res.status(400)...], [None] a rejected [bcrypt.hash]. *)
Definition update_username (username id : value) (st : store)
    (updateData : obj) : response + obj :=
  if truthy username then
    match User.findByUsername username st with
    | Some existingUser =>
        if negb (strict_eq (prop existingUser "id") (parseInt id))
        then inl (send 400 (error_body "Username already exists"
                              "A user with this username already exists"))
        else inr (<["username" := username]> updateData)
    | None => inr (<["username" := username]> updateData)
    end
  else inr updateData.

Definition update_email (email id : value) (st : store)
    (updateData : obj) : response + obj :=
  if truthy email then
    match User.findByEmail email st with
    | Some existingUser =>
        if negb (strict_eq (prop existingUser "id") (parseInt id))
        then inl (send 400 (error_body "Email already exists"
                              "A user with this email already exists"))
        else inr (<["email" := email]> updateData)
    | None => inr (<["email" := email]> updateData)
    end
  else inr updateData.

Definition update_password (e : env) (password : value)
    (updateData : obj) : option obj :=
  if truthy password then
    match hash e password with
    | Some h => Some (<["password" := h]> updateData)
    | None => None
    end
  else Some updateData.

Definition updated_body (user : obj) : value :=
  VObj (<["message" := VStr "User updated successfully"]>
       (<["user" := VObj user]> ∅)).

Definition put_user_by_id : handler := fun req e st =>
  let id := prop (req_params req) "id" in
  if not_admin req && not_owner req id
  then (forbidden "You can only update your own profile", st)
  else
    let username := prop (req_body req) "username" in
    let email := prop (req_body req) "email" in
    let password := prop (req_body req) "password" in
    match update_username username id st ∅ with
    | inl r => (r, st)
    | inr updateData =>
    match update_email email id st updateData with
    | inl r => (r, st)
    | inr updateData =>
    match update_password e password updateData with
    | None =>
        (send 500 (error_body "Server error"
                     "An error occurred while updating user"), st)
    | Some updateData =>
        match User.updateById id updateData (env_now e) st with
        | (None, st') => (user_not_found, st')
        | (Some updatedUser, st') => (send 200 (updated_body updatedUser), st')
        end
    end end end.

Definition delete_user_by_id : handler := fun req e st =>
  let id := prop (req_params req) "id" in
  if not_admin req
  then (forbidden "Admin access required to delete users", st)
  else if strict_eq (prop (req_user req) "userId") (parseInt id)
  then (send 400 (error_body "Invalid operation"
                    "You cannot delete your own account"), st)
  else
    match User.deleteById id st with
    | (false, st') => (user_not_found, st')
    | (true, st') =>
        (send 200 (VObj (<["message" := VStr "User deleted successfully"]> ∅)),
         st')
    end.

Definition get_stats : handler := fun req e st =>
  if not_admin req then (forbidden "Admin access required", st)
  else (send 200 (VObj (User.getUserStats st)), st).

End Routes.

(** ** The Express router *)

Inductive method : Type := GET | POST | PUT | DELETE.

Definition method_eqb (a b : method) : bool :=
  match a, b with
  | GET, GET | POST, POST | PUT, PUT | DELETE, DELETE => true
  | _, _ => false
  end.

(** A path pattern is a list of segments: a literal or a named parameter
    ([:id]), which matches any one segment.  A request's path is the list
    of its segments below the mount point as the router hands them to a
    handler: cut at the slashes, percent-decoded, and without the empty
    segment a trailing slash leaves. *)
Inductive segment : Type :=
| Lit (s : string)
| Param (name : string).

Record route : Type := mkRoute {
  rt_method : method;
  rt_path : list segment;
  rt_handler : handler
}.

(** ASCII letters in lower case: Express matches the literal part of a
    route without regard to case. *)
Definition lower_ascii (a : ascii) : ascii :=
  let n := nat_of_ascii a in
  if ((65 <=? n) && (n <=? 90))%nat then ascii_of_nat (n + 32) else a.

Fixpoint lower (s : string) : string :=
  match s with
  | String a r => String (lower_ascii a) (lower r)
  | EmptyString => EmptyString
  end.

Fixpoint match_path (pat : list segment) (path : list string) (params : obj)
    : option obj :=
  match pat, path with
  | [], [] => Some params
  | Lit s :: pat', x :: path' =>
      if String.eqb (lower s) (lower x)
      then match_path pat' path' params else None
  | Param name :: pat', x :: path' =>
      match_path pat' path' (<[name := VStr x]> params)
  | _, _ => None
  end.

(** Routes are tried in the order they were registered; the first one
    whose method and pattern match handles the request.  No handler of
    these routers calls [next()], so later routes are never consulted
    after a match.  [None] means that no route matched. *)
Fixpoint dispatch (routes : list route) (m : method) (path : list string)
    (req : request) (e : env) (st : store) : option (response * store) :=
  match routes with
  | [] => None
  | r :: rest =>
      if method_eqb (rt_method r) m then
        match match_path (rt_path r) path ∅ with
        | Some ps => Some (rt_handler r (with_params ps req) e st)
        | None => dispatch rest m path req e st
        end
      else dispatch rest m path req e st
  end.

(** routes/auth.js, mounted at [/api/auth]. *)
Definition auth_router (P : platform) : list route :=
  [ mkRoute POST [Lit "register"] (through (validateRegister P) (post_register P));
    mkRoute POST [Lit "login"] (through (validateLogin P) (post_login P));
    mkRoute GET [Lit "me"] (through (authenticateToken P) get_me) ].

(** routes/users.js, mounted at [/api/users]. *)
Definition users_router (P : platform) : list route :=
  [ mkRoute GET [] (through (authenticateToken P) get_users);
    mkRoute GET [Param "id"] (through (authenticateToken P) get_user_by_id);
    mkRoute PUT [Param "id"]
      (through (authenticateToken P)
         (through (validateUserUpdate P) (put_user_by_id P)));
    mkRoute DELETE [Param "id"] (through (authenticateToken P) delete_user_by_id);
    mkRoute GET [Lit "stats"] (through (authenticateToken P) get_stats) ].

(** ** middleware/errorHandler.js *)

(** [Object.values(v)]; [None] is the TypeError on [undefined] and
    [null].  The order of an object's values is not modelled. *)
Definition object_values (v : value) : option (list value) :=
  match v with
  | VUndef | VNull => None
  | VObj o => Some (snd <$> map_to_list o)
  | VArr l => Some l
  | VStr s => Some ((fun c => VStr (String c "")) <$> list_ascii_of_string s)
  | _ => Some []
  end.

(** [v.message]; [None] is the TypeError on [undefined] and [null]. *)
Definition message_of (v : value) : option value :=
  match v with
  | VUndef | VNull => None
  | VObj o => Some (prop o "message")
  | _ => Some VUndef
  end.

Record error_info : Type := mkError {
  statusCode : value;
  message : value;
  details : option value
}.

(** [err] is the error object passed to [next(err)], [node_env] is
    [process.env.NODE_ENV].  [None] means that the handler itself
    throws. *)
Definition errorHandler (err : obj) (node_env : value) : option response :=
  let error := mkError (VNum 500) (VStr "Internal Server Error") None in
  error ←
    (if strict_eq (prop err "name") (VStr "ValidationError") then
       vs ← object_values (prop err "errors");
       ds ← mapM message_of vs;
       Some (mkError (VNum 400) (VStr "Validation Error") (Some (VArr ds)))
     else Some error);
  let error :=
    if strict_eq (prop err "name") (VStr "JsonWebTokenError")
    then mkError (VNum 401) (VStr "Invalid token") (details error)
    else error in
  let error :=
    if strict_eq (prop err "name") (VStr "TokenExpiredError")
    then mkError (VNum 401) (VStr "Token expired") (details error)
    else error in
  let error :=
    if truthy (prop err "statusCode")
    then mkError (prop err "statusCode") (prop err "message") (details error)
    else error in
  let b := <["error" := message error]> ∅ in
  let b :=
    if strict_eq node_env (VStr "development")
    then <["stack" := prop err "stack"]> b else b in
  let b :=
    match details error with
    | Some d => <["details" := d]> b
    | None => b
    end in
  Some {| status := statusCode error; body := VObj b |}.

(** * The vocabulary of the properties *)

(** ** Who is asking *)

(** The requester's role is admin. *)
Definition is_admin (req : request) : Prop :=
  prop (req_user req) "role" = VStr "admin".

(** The requester's [userId] is the number the path parameter denotes. *)
Definition is_owner (req : request) (id : value) : Prop :=
  exists n, prop (req_user req) "userId" = VNum n /\ parseInt id = VNum n.

(** ** Stand-ins for the collaborators, and inputs to run the routes on *)

(** The claims of the two tokens of the specification's scenario. *)
Definition admin_claims : obj :=
  <["userId" := VNum 1]>
  (<["username" := VStr "admin"]>
  (<["role" := VStr "admin"]> ∅)).

Definition alice_claims : obj :=
  <["userId" := VNum 2]>
  (<["username" := VStr "alice"]>
  (<["role" := VStr "user"]> ∅)).

(** A guard that knows two bearer tokens by name. *)
Definition stub_authenticate : middleware := fun req =>
  match prop (req_headers req) "authorization" with
  | VStr "Bearer admin" => inr (with_user admin_claims req)
  | VStr "Bearer alice" => inr (with_user alice_claims req)
  | _ => inl (send 401 (error_body "Unauthorized" "Authentication required"))
  end.

(** Deterministic stand-ins: a hash that ignores its salt, a signer
    that never fails, validation that lets every body through. *)
Definition stub_platform : platform :=
  {| bcrypt_hash := fun salt p => String.append "h:" p;
     bcrypt_compare := fun p h => String.eqb h (String.append "h:" p);
     jwt_sign := fun now claims => Some "token";
     authenticateToken := stub_authenticate;
     validateRegister := inr;
     validateLogin := inr;
     validateUserUpdate := inr |}.

(** A request as a handler sees it: claims [u] attached, path parameter
    [id], body [b]. *)
Definition as_user (u : obj) (id : string) (b : obj) : request :=
  {| req_headers := ∅; req_params := {["id" := VStr id]}; req_query := ∅;
     req_body := b; req_user := u |}.

Definition an_env : env := {| env_now := "2024-01-01T00:00:00.000Z"; env_salt := "s" |}.

Definition alice_body : obj :=
  <["username" := VStr "alice"]>
  (<["email" := VStr "alice@x.com"]>
  (<["password" := VStr "Secret123"]> ∅)).

(** The store of the specification's scenario: the seeded admin and
    alice, registered through [POST /auth/register]. *)
Definition scenario_store : store :=
  snd (post_register stub_platform
         (as_user ∅ "" alice_body) an_env (initial_store "boot")).

Definition expired_error : obj :=
  <["name" := VStr "TokenExpiredError"]> (<["message" := VStr "jwt expired"]> ∅).

(** ** Shapes of answers *)

(** A response that carries no user at all: [{ error, message }]. *)
Definition is_error (r : response) : Prop :=
  exists code error message, r = send code (error_body error message).

(** The view has no [password] property. *)
Definition public (u : obj) : Prop := u !! "password" = None.

(** The properties an update may write. *)
Definition patchable (k : string) : Prop :=
  k = "username" \/ k = "email" \/ k = "password" \/ k = "updatedAt".

(** ** Pages *)

(** The page as the specification words it: the elements whose index
    lies in [[skip, skip + pageSize)], with [skip = (page - 1) * pageSize].
    [window l i lo hi] keeps the elements of [l], numbered from [i], whose
    number is in [[lo, hi)]. *)
Fixpoint window {A} (l : list A) (i lo hi : Z) : list A :=
  match l with
  | [] => []
  | x :: r =>
      (if (lo <=? i) && (i <? hi) then [x] else []) ++ window r (i + 1) lo hi
  end.

Definition spec_page {A} (l : list A) (page pageSize : Z) : list A :=
  let skip := (page - 1) * pageSize in
  window l 0 skip (skip + pageSize).

(** [r.body[k]] *)
Definition body_field (r : response) (k : string) : value :=
  match body r with
  | VObj o => prop o k
  | _ => VUndef
  end.

(** [r.body.pagination[k]] *)
Definition pagination_field (r : response) (k : string) : value :=
  match body_field r "pagination" with
  | VObj o => prop o k
  | _ => VUndef
  end.

Definition with_query (q : obj) (req : request) : request :=
  {| req_headers := req_headers req; req_params := req_params req;
     req_query := q; req_body := req_body req; req_user := req_user req |}.

(** The claim as the specification words it, for every page and page
    size: the users listed are those of the window the page names. *)
Definition list_users_as_stated : Prop :=
  forall (req : request) (e : env) (st : store) (page pageSize : Z),
    is_admin req ->
    parseInt (prop (req_query req) "page") = VNum page ->
    parseInt (prop (req_query req) "limit") = VNum pageSize ->
    let r := fst (get_users req e st) in
    status r = VNum 200 /\
    body_field r "users"
    = VArr (VObj <$> spec_page (User.findAll st) page pageSize).

Definition page_zero_query : obj :=
  <["page" := VStr "0"]> (<["limit" := VStr "1"]> ∅).

Definition page_two_query : obj :=
  <["page" := VStr "2"]> (<["limit" := VStr "1"]> ∅).

Definition page_minus_one_query : obj :=
  <["page" := VStr "-1"]> (<["limit" := VStr "1"]> ∅).

(** A request as it reaches a router, before the guard has run. *)
Definition admin_get : request :=
  {| req_headers := {["authorization" := VStr "Bearer admin"]};
     req_params := ∅; req_query := ∅; req_body := ∅; req_user := ∅ |}.

(** ** The state of the store *)

(** No two records of the array hold [===]-equal values under [k]. *)
Definition unique_by (k : string) (us : list obj) : Prop :=
  forall (i j : nat) (u v : obj),
    us !! i = Some u -> us !! j = Some v ->
    strict_eq (prop u k) (prop v k) = true -> i = j.

(** Every stored id is a number the counter has already passed. *)
Definition ids_below (st : store) : Prop :=
  forall u, In u (users st) ->
    exists n, prop u "id" = VNum n /\ n < nextUserId st.

Record store_ok (st : store) : Prop := mkStoreOk {
  ok_ids : ids_below st;
  ok_id : unique_by "id" (users st);
  ok_email : unique_by "email" (users st);
  ok_username : unique_by "username" (users st)
}.

(** How many records hold the email [a]. *)
Definition count_email (a : string) (st : store) : nat :=
  length (List.filter (fun u => strict_eq (prop u "email") (VStr a)) (users st)).

(** A handler keeps the store well formed. *)
Definition preserves (h : handler) : Prop :=
  forall req e st, store_ok st -> store_ok (snd (h req e st)).

(** The stores the server is in when it serves one request at a time:
    the one it starts with, and the one any request to either router
    leaves behind. *)
Inductive served_in_turn (P : platform) (boot : string) : store -> Prop :=
| turn_boot : served_in_turn P boot (initial_store boot)
| turn_auth st m path req e r st' :
    served_in_turn P boot st ->
    dispatch (auth_router P) m path req e st = Some (r, st') ->
    served_in_turn P boot st'
| turn_users st m path req e r st' :
    served_in_turn P boot st ->
    dispatch (users_router P) m path req e st = Some (r, st') ->
    served_in_turn P boot st'.

(** *** The handlers between their awaits

    Node runs a handler until it awaits.  [await bcrypt.hash] hands the
    work to later turns of the event loop, and other requests are served
    meanwhile: what a handler looked up before and what it writes after
    may meet different stores. *)

(** The registration up to [await bcrypt.hash]: the two look-ups.
    [Some r] is an early answer, [None] lets the handler go on. *)
Definition register_check (req : request) (st : store) : option response :=
  match User.findByEmail (prop (req_body req) "email") st with
  | Some _ =>
      Some (send 400 (error_body "User already exists"
                        "A user with this email already exists"))
  | None =>
      match User.findByUsername (prop (req_body req) "username") st with
      | Some _ =>
          Some (send 400 (error_body "User already exists"
                            "A user with this username already exists"))
      | None => None
      end
  end.

(** The registration from the hash on: [User.create], [jwt.sign], the
    answer.  Nothing is looked up again. *)
Definition register_commit (P : platform) : handler := fun req e st =>
  let failed := send 500 (error_body "Server error"
                  "An error occurred during registration") in
  match hash P e (prop (req_body req) "password") with
  | None => (failed, st)
  | Some hashedPassword =>
      let userData :=
        <["username" := prop (req_body req) "username"]>
        (<["email" := prop (req_body req) "email"]>
        (<["password" := hashedPassword]> ∅)) in
      let '(newUser, st') := User.create userData (env_now e) st in
      match sign P e newUser with
      | None => (failed, st')
      | Some token =>
          (send 201 (auth_response "User registered successfully"
                       token newUser), st')
      end
  end.

(** The stores the server can be in.  Besides the steps of
    [served_in_turn], a registration may write into a store other than
    the one its look-ups saw, and so may an update that hashes a new
    password.  The update's two look-ups are let meet two stores, which
    is more than the event loop allows and leaves no store out. *)
Inductive reachable (P : platform) (boot : string) : store -> Prop :=
| reach_boot : reachable P boot (initial_store boot)
| reach_auth st m path req e r st' :
    reachable P boot st ->
    dispatch (auth_router P) m path req e st = Some (r, st') ->
    reachable P boot st'
| reach_users st m path req e r st' :
    reachable P boot st ->
    dispatch (users_router P) m path req e st = Some (r, st') ->
    reachable P boot st'
| reach_register_late st0 st req e :
    reachable P boot st0 ->
    register_check req st0 = None ->
    reachable P boot st ->
    reachable P boot (snd (register_commit P req e st))
| reach_update_late st1 st2 st req e d1 d2 d3 :
    let id := prop (req_params req) "id" in
    reachable P boot st1 ->
    update_username (prop (req_body req) "username") id st1 ∅ = inr d1 ->
    reachable P boot st2 ->
    update_email (prop (req_body req) "email") id st2 d1 = inr d2 ->
    update_password P e (prop (req_body req) "password") d2 = Some d3 ->
    reachable P boot st ->
    reachable P boot (snd (User.updateById id d3 (env_now e) st)).

(** What every reachable store keeps, overlap or not. *)
Definition passwords_ok (st : store) : Prop :=
  forall u, In u (users st) -> exists h : string, prop u "password" = VStr h.


(** Two login bodies: an email nobody has, and alice's with a number
    where the password goes. *)
Definition nobody_login : obj :=
  <["email" := VStr "nobody@x.com"]> (<["password" := VStr "pw"]> ∅).

Definition alice_number_login : obj :=
  <["email" := VStr "alice@x.com"]> (<["password" := VNum 12345]> ∅).


(** The four conflict answers of the routes. *)
Definition email_exists : response :=
  send 400 (error_body "User already exists"
              "A user with this email already exists").

Definition username_exists : response :=
  send 400 (error_body "User already exists"
              "A user with this username already exists").

Definition username_taken : response :=
  send 400 (error_body "Username already exists"
              "A user with this username already exists").

Definition email_taken : response :=
  send 400 (error_body "Email already exists"
              "A user with this email already exists").

Definition alice_again : obj :=
  <["username" := VStr "alice2"]>
  (<["email" := VStr "alice@x.com"]>
  (<["password" := VStr "Other456"]> ∅)).

(** ** More vocabulary: the model's own round trips *)

(** The request of [req] with the path parameter [id]. *)
Definition with_id (id : value) (req : request) : request :=
  with_params {["id" := id]} req.

(** The number of records in the store. *)
Definition user_count (st : store) : Z := Z.of_nat (length (users st)).

(** ** More vocabulary: registration and login *)

(** [bcrypt.compare] accepts what [bcrypt.hash] made of the same text. *)
Definition bcrypt_sound (P : platform) : Prop :=
  forall salt p, bcrypt_compare P p (bcrypt_hash P salt p) = true.

(** The record a registration stores: six properties, no more. *)
Definition registered_record (P : platform) (e : env) (username email : value)
    (p : string) (n : Z) : obj :=
  <["id" := VNum n]>
  (<["username" := username]>
  (<["email" := email]>
  (<["password" := VStr (bcrypt_hash P (env_salt e) p)]>
  (<["role" := VStr "user"]>
  (<["createdAt" := VStr (env_now e)]> ∅))))).

Definition registration_failed : response :=
  send 500 (error_body "Server error" "An error occurred during registration").


(** The stand-ins with a signer that always throws, as [jwt.sign] does
    without a secret. *)
Definition unsigned_platform : platform :=
  {| bcrypt_hash := bcrypt_hash stub_platform;
     bcrypt_compare := bcrypt_compare stub_platform;
     jwt_sign := fun now claims => None;
     authenticateToken := stub_authenticate;
     validateRegister := inr;
     validateLogin := inr;
     validateUserUpdate := inr |}.

(** ** More vocabulary: roles and statistics *)

(** A record is a plain user, or the admin the module starts with. *)
Definition role_ok (u : obj) : Prop :=
  prop u "role" = VStr "user" \/
  (prop u "role" = VStr "admin" /\ prop u "id" = VNum 1).

Definition roles_ok (st : store) : Prop :=
  forall u, In u (users st) -> role_ok u.

Record store_sound (st : store) : Prop := mkStoreSound {
  sound_ids : ids_below st;
  sound_id : unique_by "id" (users st);
  sound_roles : roles_ok st;
  sound_passwords : passwords_ok st
}.

(** What an update may hand to [updateById]: a username, an email, and
    a password that is a hash. *)
Definition patch_ok (d : obj) : Prop :=
  (forall k, k <> "username" -> k <> "email" -> k <> "password" ->
     d !! k = None) /\
  (d !! "password" = None \/ exists h : string, d !! "password" = Some (VStr h)).

(** A handler keeps [I]. *)
Definition keeps (I : store -> Prop) (h : handler) : Prop :=
  forall req e st, I st -> I (snd (h req e st)).

(** [getUserStats()[k]] *)
Definition stat (st : store) (k : string) : value :=
  prop (User.getUserStats st) k.

(** ** More vocabulary: errors *)

(** [v.message] where it does not throw. *)
Definition message_or_undefined (v : value) : value :=
  match v with
  | VObj o => prop o "message"
  | _ => VUndef
  end.

(** A validation error as mongoose raises it. *)
Definition validation_error : obj :=
  <["name" := VStr "ValidationError"]>
  (<["errors" :=
       VObj {["email" := VObj {["message" := VStr "email is invalid"]}]}]> ∅).

(** An error a body parser raises on malformed JSON. *)
Definition parse_error : obj :=
  <["name" := VStr "SyntaxError"]>
  (<["statusCode" := VNum 400]>
  (<["message" := VStr "Unexpected token"]>
  (<["stack" := VStr "SyntaxError: at parse"]> ∅))).

(** ** Inputs in unusual dress *)

(** The id [2] after a no-break space (U+00A0), and after a line
    separator (U+2028). *)
Definition nbsp_two : string :=
  String (ascii_of_nat 194) (String (ascii_of_nat 160) "2").

Definition ls_two : string :=
  String (ascii_of_nat 226) (String (ascii_of_nat 128)
    (String (ascii_of_nat 168) "2")).

Definition nbsp_page_query : obj :=
  <["page" := VStr nbsp_two]> (<["limit" := VStr "1"]> ∅).

Definition big_page_query : obj :=
  <["page" := VStr "9007199254740993"]> ∅.

(** * Properties *)

(** ** Facts about values and arrays *)

Lemma strict_eq_true a b : strict_eq a b = true -> a = b.
Proof.
  destruct a, b; simpl; try discriminate; try reflexivity; intros H.
  - apply Bool.eqb_prop in H. congruence.
  - apply Z.eqb_eq in H. congruence.
  - apply String.eqb_eq in H. congruence.
Qed.

Lemma strict_eq_sym a b : strict_eq a b = strict_eq b a.
Proof.
  destruct a, b; simpl; try reflexivity.
  - destruct b, b0; reflexivity.
  - apply Z.eqb_sym.
  - apply String.eqb_sym.
Qed.

Lemma strict_eq_NaN_r a : strict_eq a VNaN = false.
Proof. destruct a; reflexivity. Qed.

Lemma strict_eq_str_refl s : strict_eq (VStr s) (VStr s) = true.
Proof. apply String.eqb_refl. Qed.

(** [parseInt] yields a number or NaN, whatever it is given. *)
Lemma parseInt_string_cases s :
  parseInt_string s = VNaN \/ exists n, parseInt_string s = VNum n.
Proof.
  unfold parseInt_string.
  destruct (strip_sign (skip_ws s)) as [sign s1].
  destruct (strip_radix s1) as [radix s2].
  destruct (digits radix s2 None); eauto.
Qed.

Lemma parseInt_cases : forall v,
  parseInt v = VNaN \/ exists n, parseInt v = VNum n.
Proof.
  fix IH 1.
  intros [ | | b | n | | s | o | [ | x l ] ]; simpl;
    try (clear IH; eauto; fail).
  - clear IH. apply parseInt_string_cases.
  - pose proof (IH x) as Hx. clear IH.
    destruct x; simpl in *; auto.
Qed.

Lemma strict_eq_parseInt a v :
  strict_eq a (parseInt v) = true <->
  exists n, a = VNum n /\ parseInt v = VNum n.
Proof.
  split.
  - intros H. destruct (parseInt_cases v) as [E | [n E]]; rewrite E in H.
    + rewrite strict_eq_NaN_r in H. discriminate.
    + exists n. split; [ | exact E ]. now apply strict_eq_true in H.
  - intros (n & -> & ->). simpl. apply Z.eqb_refl.
Qed.

Lemma findIndex_Some {A} (p : A -> bool) l i :
  findIndex p l = Some i ->
  exists l1 u l2,
    l = l1 ++ u :: l2 /\ length l1 = i /\ p u = true /\
    (forall x, In x l1 -> p x = false).
Proof.
  revert i. induction l as [ | x r IH ]; simpl; intros i H; [ discriminate | ].
  destruct (p x) eqn:Hx.
  - injection H as <-. exists [], x, r. repeat split; auto. intros ? [].
  - destruct (findIndex p r) as [ j | ] eqn:Hr; simpl in H; [ | discriminate ].
    injection H as <-.
    destruct (IH j eq_refl) as (l1 & u & l2 & -> & <- & Hu & Hl1).
    exists (x :: l1), u, l2. repeat split; auto.
    intros y [ <- | Hy ]; auto.
Qed.

Lemma findIndex_None {A} (p : A -> bool) l :
  findIndex p l = None <-> forall x, In x l -> p x = false.
Proof.
  induction l as [ | x r IH ]; simpl.
  - split; [ intros _ ? [] | reflexivity ].
  - destruct (p x) eqn:Hx.
    + split; [ discriminate | ]. intros H. rewrite (H x) in Hx; auto. discriminate.
    + destruct (findIndex p r) eqn:Hr; simpl.
      * split; [ discriminate | ]. intros H.
        assert (Some n = None) as Hn by (apply IH; auto).
        discriminate.
      * split; [ | reflexivity ]. intros _ y [ <- | Hy ]; auto.
        now apply IH.
Qed.

(** [find] and [findIndex] agree on what they find. *)
Lemma find_findIndex {A} (p : A -> bool) l :
  List.find p l =
  match findIndex p l with Some i => l !! i | None => None end.
Proof.
  induction l as [ | x r IH ]; simpl; [ reflexivity | ].
  destruct (p x); [ reflexivity | ].
  rewrite IH. destruct (findIndex p r); reflexivity.
Qed.

Lemma delete_middle {A} (l1 l2 : list A) u :
  delete (length l1) (l1 ++ u :: l2) = l1 ++ l2.
Proof. induction l1 as [ | x r IH ]; simpl; [ reflexivity | now rewrite IH ]. Qed.

Lemma withoutPassword_password u : withoutPassword u !! "password" = None.
Proof. apply lookup_delete_eq. Qed.

Lemma withoutPassword_other u k :
  k <> "password" -> withoutPassword u !! k = u !! k.
Proof. intros H. unfold withoutPassword. now rewrite lookup_delete_ne. Qed.

(** ** The two tests of the routes, as propositions *)

Lemma not_admin_false req : not_admin req = false <-> is_admin req.
Proof.
  unfold not_admin, is_admin. rewrite negb_false_iff. split.
  - apply strict_eq_true.
  - intros ->. reflexivity.
Qed.

Lemma not_admin_true req : not_admin req = true <-> ~ is_admin req.
Proof.
  rewrite <- not_admin_false. destruct (not_admin req); split; congruence.
Qed.

Lemma not_owner_false req id : not_owner req id = false <-> is_owner req id.
Proof.
  unfold not_owner, is_owner. rewrite negb_false_iff. apply strict_eq_parseInt.
Qed.

Lemma not_owner_true req id : not_owner req id = true <-> ~ is_owner req id.
Proof.
  rewrite <- not_owner_false. destruct (not_owner req id); split; congruence.
Qed.

Lemma allowed_cases req id :
  is_admin req \/ is_owner req id ->
  not_admin req && not_owner req id = false.
Proof.
  intros [H | H].
  - apply not_admin_false in H. now rewrite H.
  - apply not_owner_false in H. rewrite H. apply andb_false_r.
Qed.

Lemma denied_cases req id :
  ~ is_admin req -> ~ is_owner req id ->
  not_admin req && not_owner req id = true.
Proof.
  intros Ha Ho. apply not_admin_true in Ha. apply not_owner_true in Ho.
  now rewrite Ha, Ho.
Qed.

(** ** GET /users/:id *)

(** C5: a request for a user by id is answered with that user's public
    view only to an admin or to the user itself, and with Forbidden to
    anyone else; an allowed request gets NotFound when no record has the
    id, and otherwise the public view of the record with that id. *)
Theorem get_user_by_id_access (req : request) (e : env) (st : store) :
  let id := prop (req_params req) "id" in
  let out := get_user_by_id req e st in
  (status (fst out) = VNum 200 -> is_admin req \/ is_owner req id) /\
  (~ is_admin req -> ~ is_owner req id ->
   out = (forbidden "You can only access your own profile", st)) /\
  (is_admin req \/ is_owner req id ->
   (forall u, In u (users st) -> User.has_id id u = false) ->
   out = (user_not_found, st)) /\
  (is_admin req \/ is_owner req id ->
   (exists u, In u (users st) /\ User.has_id id u = true) ->
   exists u, In u (users st) /\ User.has_id id u = true /\
             out = (send 200 (VObj (withoutPassword u)), st)).
Proof.
  intros id out. subst out. unfold get_user_by_id. fold id.
  repeat split.
  - destruct (not_admin req) eqn:Ha; [ | left; now apply not_admin_false ].
    destruct (not_owner req id) eqn:Ho; [ | right; now apply not_owner_false ].
    simpl. discriminate.
  - intros Ha Ho. now rewrite denied_cases.
  - intros Hok Hnone. rewrite allowed_cases by assumption.
    unfold User.findById.
    destruct (List.find (User.has_id id) (users st)) as [u | ] eqn:Hf;
      [ | reflexivity ].
    apply List.find_some in Hf as [Hin Hu].
    rewrite Hnone in Hu by assumption. discriminate.
  - intros Hok (u & Hin & Hu). rewrite allowed_cases by assumption.
    unfold User.findById.
    destruct (List.find (User.has_id id) (users st)) as [v | ] eqn:Hf.
    + apply List.find_some in Hf as [Hv1 Hv2]. exists v. auto.
    + rewrite (List.find_none _ _ Hf u Hin) in Hu. discriminate.
Qed.

Lemma get_user_by_id_access_witness :
  exists u,
    In u (users scenario_store) /\
    User.has_id (VStr "2") u = true /\
    get_user_by_id (as_user alice_claims "2" ∅) an_env scenario_store
    = (send 200 (VObj (withoutPassword u)), scenario_store).
Proof.
  apply (get_user_by_id_access (as_user alice_claims "2" ∅) an_env scenario_store).
  - right. exists 2. split; reflexivity.
  - exists (nth 1 (users scenario_store) ∅). split; [ right; left | ]; reflexivity.
Defined.

(** ** DELETE /users/:id *)

Lemma deleteById_found id st :
  (exists u, In u (users st) /\ User.has_id id u = true) ->
  exists l1 u l2,
    users st = l1 ++ u :: l2 /\
    User.has_id id u = true /\
    (forall x, In x l1 -> User.has_id id x = false) /\
    User.deleteById id st
    = (true, {| users := l1 ++ l2; nextUserId := nextUserId st |}).
Proof.
  intros (u & Hin & Hu). unfold User.deleteById.
  destruct (findIndex (User.has_id id) (users st)) as [i | ] eqn:Hi.
  - destruct (findIndex_Some _ _ _ Hi) as (l1 & v & l2 & Hl & <- & Hv & Hl1).
    exists l1, v, l2. repeat split; auto.
    now rewrite Hl, delete_middle.
  - rewrite (proj1 (findIndex_None _ _) Hi u Hin) in Hu. discriminate.
Qed.

Lemma deleteById_missing id st :
  (forall u, In u (users st) -> User.has_id id u = false) ->
  User.deleteById id st = (false, st).
Proof.
  intros H. unfold User.deleteById.
  now rewrite (proj2 (findIndex_None _ _) H).
Qed.

(** C6: deleting a user is Forbidden to everyone but an admin; an admin
    naming its own id gets a 400 and nothing is removed; an admin naming
    another id gets NotFound when no record has it, and otherwise exactly
    the record with that id is removed. *)
Theorem delete_user_by_id_spec (req : request) (e : env) (st : store) :
  let id := prop (req_params req) "id" in
  let out := delete_user_by_id req e st in
  (~ is_admin req ->
   out = (forbidden "Admin access required to delete users", st)) /\
  (is_admin req -> is_owner req id ->
   out = (send 400 (error_body "Invalid operation"
                      "You cannot delete your own account"), st)) /\
  (is_admin req -> ~ is_owner req id ->
   (forall u, In u (users st) -> User.has_id id u = false) ->
   out = (user_not_found, st)) /\
  (is_admin req -> ~ is_owner req id ->
   (exists u, In u (users st) /\ User.has_id id u = true) ->
   exists l1 u l2,
     users st = l1 ++ u :: l2 /\
     User.has_id id u = true /\
     (forall x, In x l1 -> User.has_id id x = false) /\
     status (fst out) = VNum 200 /\
     snd out = {| users := l1 ++ l2; nextUserId := nextUserId st |}).
Proof.
  intros id out. subst out. unfold delete_user_by_id. fold id.
  repeat split.
  - intros Ha. apply not_admin_true in Ha. now rewrite Ha.
  - intros Ha Ho. apply not_admin_false in Ha. apply not_owner_false in Ho.
    unfold not_owner in Ho. apply negb_false_iff in Ho. now rewrite Ha, Ho.
  - intros Ha Ho Hnone. apply not_admin_false in Ha. apply not_owner_true in Ho.
    unfold not_owner in Ho. apply negb_true_iff in Ho. rewrite Ha, Ho.
    now rewrite deleteById_missing.
  - intros Ha Ho Hsome. apply not_admin_false in Ha. apply not_owner_true in Ho.
    unfold not_owner in Ho. apply negb_true_iff in Ho. rewrite Ha, Ho.
    destruct (deleteById_found id st Hsome) as (l1 & u & l2 & Hl & Hu & Hl1 & Hd).
    exists l1, u, l2. rewrite Hd. repeat split; auto.
Qed.

Lemma delete_user_by_id_spec_witness :
  delete_user_by_id (as_user admin_claims "1" ∅) an_env scenario_store
  = (send 400 (error_body "Invalid operation"
                 "You cannot delete your own account"), scenario_store).
Proof.
  apply (delete_user_by_id_spec (as_user admin_claims "1" ∅) an_env scenario_store).
  - reflexivity.
  - exists 1. split; reflexivity.
Defined.

Example delete_alice :
  snd (delete_user_by_id (as_user admin_claims "2" ∅) an_env scenario_store)
  = {| users := [admin_record "boot"]; nextUserId := 3 |}.
Proof. reflexivity. Qed.

(** ** PUT /users/:id, refused *)

(** C7: an update by a requester that is neither admin nor the owner of
    the target id is answered 403 Forbidden whatever the body holds, and
    leaves the whole store, hence the target record, as it was. *)
Theorem put_user_by_id_forbidden (P : platform) (req : request) (e : env)
    (st : store) :
  ~ is_admin req ->
  ~ is_owner req (prop (req_params req) "id") ->
  put_user_by_id P req e st
  = (forbidden "You can only update your own profile", st).
Proof.
  intros Ha Ho. unfold put_user_by_id. now rewrite denied_cases.
Qed.

Lemma put_user_by_id_forbidden_witness :
  put_user_by_id stub_platform
    (as_user alice_claims "1" {["username" := VStr "root"]}) an_env scenario_store
  = (forbidden "You can only update your own profile", scenario_store).
Proof.
  apply put_user_by_id_forbidden.
  - discriminate.
  - intros (n & Hn & Hid). vm_compute in Hn, Hid. congruence.
Defined.

(** ** POST /auth/login *)

Example login_alice_succeeds :
  status (fst (post_login stub_platform (as_user ∅ "" alice_body) an_env
                 scenario_store)) = VNum 200.
Proof. reflexivity. Qed.

(** ** The error handler *)

(** C9: an error named TokenExpiredError is answered 401 "Token expired"
    and one named JsonWebTokenError 401 "Invalid token" (the errors of
    jsonwebtoken carry no [statusCode] of their own): two messages, one
    status. *)
Theorem errorHandler_token_errors (err : obj) (node_env : value) :
  truthy (prop err "statusCode") = false ->
  (prop err "name" = VStr "TokenExpiredError" ->
   exists b, errorHandler err node_env
             = Some {| status := VNum 401; body := VObj b |} /\
             b !! "error" = Some (VStr "Token expired")) /\
  (prop err "name" = VStr "JsonWebTokenError" ->
   exists b, errorHandler err node_env
             = Some {| status := VNum 401; body := VObj b |} /\
             b !! "error" = Some (VStr "Invalid token")).
Proof.
  intros Hsc. split; intros Hn; unfold errorHandler; rewrite Hn, Hsc; simpl;
    eexists; (split; [ reflexivity | ]);
    destruct (strict_eq node_env (VStr "development")); reflexivity.
Qed.

Lemma errorHandler_token_errors_witness :
  exists b, errorHandler expired_error (VStr "production")
            = Some {| status := VNum 401; body := VObj b |} /\
            b !! "error" = Some (VStr "Token expired").
Proof.
  apply (errorHandler_token_errors expired_error (VStr "production"));
    reflexivity.
Defined.

(** ** Public views *)

Lemma findAll_public st : Forall public (User.findAll st).
Proof.
  unfold User.findAll. apply Forall_forall. intros u Hu.
  apply list_elem_of_In, in_map_iff in Hu as (v & <- & _).
  apply withoutPassword_password.
Qed.

Lemma findById_public id st u : User.findById id st = Some u -> public u.
Proof.
  unfold User.findById.
  destruct (List.find _ _); intros [= <-]. apply withoutPassword_password.
Qed.

Lemma create_public userData now st : public (fst (User.create userData now st)).
Proof. apply withoutPassword_password. Qed.

Lemma updateById_public id userData now st u st' :
  User.updateById id userData now st = (Some u, st') -> public u.
Proof.
  unfold User.updateById.
  destruct (findIndex _ _); [ | discriminate ].
  destruct (users st !! _); intros [= <- _]. apply withoutPassword_password.
Qed.

Lemma js_slice_sub {A} (l : list A) s e x : In x (js_slice l s e) -> In x l.
Proof.
  unfold js_slice. intros H.
  apply list_elem_of_In in H. apply list_elem_of_In.
  apply subseteq_take in H. now apply subseteq_drop in H.
Qed.

Local Ltac error_shape := left; do 3 eexists; reflexivity.

(** C1: every answer of register, login, get-profile, get-user-by-id,
    list-users and update-user is either an error body, which holds no
    user, or the success body of that operation, and every user view in
    it lacks the [password] property, the field that stores the hash. *)
Theorem user_views_omit_password (P : platform) (req : request) (e : env)
    (st : store) :
  (let r := fst (post_register P req e st) in
   is_error r \/
   exists token u,
     r = send 201 (auth_response "User registered successfully" token u) /\
     public u) /\
  (let r := fst (post_login P req e st) in
   is_error r \/
   exists token u,
     r = send 200 (auth_response "Login successful" token u) /\ public u) /\
  (let r := fst (get_me req e st) in
   is_error r \/ exists u, r = send 200 (VObj u) /\ public u) /\
  (let r := fst (get_user_by_id req e st) in
   is_error r \/ exists u, r = send 200 (VObj u) /\ public u) /\
  (let r := fst (get_users req e st) in
   is_error r \/
   exists us paginatedUsers pagination,
     r = send 200 (VObj (<["users" := VArr (VObj <$> paginatedUsers)]>
                        (<["pagination" := pagination]> ∅))) /\
     us = User.findAll st /\
     (forall u, In u paginatedUsers -> In u us) /\
     Forall public paginatedUsers) /\
  (let r := fst (put_user_by_id P req e st) in
   is_error r \/ exists u, r = send 200 (updated_body u) /\ public u).
Proof.
  repeat split; cbv zeta.
  - unfold post_register.
    destruct (User.findByEmail _ st); [ error_shape | ].
    destruct (User.findByUsername _ st); [ error_shape | ].
    destruct (hash P e _); [ | error_shape ].
    match goal with |- context [User.create ?d ?n st] =>
      pose proof (create_public d n st) as Hp;
      destruct (User.create d n st) as [newUser st'] end.
    destruct (sign P e newUser); [ | error_shape ].
    right. eauto.
  - unfold post_login.
    destruct (User.findByEmail _ st) as [user | ]; [ | error_shape ].
    destruct (compare P _ _) as [ [ | ] | ]; try error_shape.
    destruct (sign P e user); [ | error_shape ].
    right. do 2 eexists. split; [ reflexivity | apply withoutPassword_password ].
  - unfold get_me.
    destruct (User.findById _ st) as [u | ] eqn:Hu; [ | error_shape ].
    right. exists u. split; [ reflexivity | eapply findById_public; eauto ].
  - unfold get_user_by_id.
    destruct (_ && _); [ error_shape | ].
    destruct (User.findById _ st) as [u | ] eqn:Hu; [ | error_shape ].
    right. exists u. split; [ reflexivity | eapply findById_public; eauto ].
  - unfold get_users.
    destruct (not_admin req); [ error_shape | ].
    right. unfold users_page. do 3 eexists.
    split; [ reflexivity | ]. split; [ reflexivity | ].
    split; [ intros u; apply js_slice_sub | ].
    apply Forall_forall. intros u Hu.
    apply list_elem_of_In, js_slice_sub, list_elem_of_In in Hu.
    revert u Hu. apply Forall_forall, findAll_public.
  - unfold put_user_by_id.
    destruct (_ && _); [ error_shape | ].
    destruct (update_username _ _ st ∅) as [r | updateData] eqn:Hn.
    { left. unfold update_username in Hn.
      destruct (truthy _); [ | discriminate ].
      destruct (User.findByUsername _ st); [ | discriminate ].
      destruct (negb _); [ | discriminate ].
      injection Hn as <-. do 3 eexists; reflexivity. }
    destruct (update_email _ _ st updateData) as [r | updateData'] eqn:Hm.
    { left. unfold update_email in Hm.
      destruct (truthy _); [ | discriminate ].
      destruct (User.findByEmail _ st); [ | discriminate ].
      destruct (negb _); [ | discriminate ].
      injection Hm as <-. do 3 eexists; reflexivity. }
    destruct (update_password P e _ updateData'); [ | error_shape ].
    destruct (User.updateById _ _ _ st) as [[u | ] st'] eqn:Hu; [ | error_shape ].
    right. exists u. split; [ reflexivity | eapply updateById_public; eauto ].
Qed.

Example register_alice_view :
  exists u,
    body (fst (post_register stub_platform (as_user ∅ "" alice_body) an_env
                 (initial_store "boot")))
    = auth_response "User registered successfully" "token" u /\
    u !! "password" = None /\
    u !! "email" = Some (VStr "alice@x.com") /\
    u !! "id" = Some (VNum 2) /\
    u !! "role" = Some (VStr "user").
Proof. eexists. repeat split. Qed.

(** ** PUT /users/:id, what it can touch *)

Lemma update_username_keys username id st d d' k :
  update_username username id st d = inr d' ->
  k <> "username" -> d' !! k = d !! k.
Proof.
  unfold update_username. intros H Hk.
  destruct (truthy username); [ | congruence ].
  destruct (User.findByUsername username st);
    [ destruct (negb _); [ discriminate | ] | ];
    injection H as <-; now rewrite lookup_insert_ne.
Qed.

Lemma update_email_keys email id st d d' k :
  update_email email id st d = inr d' ->
  k <> "email" -> d' !! k = d !! k.
Proof.
  unfold update_email. intros H Hk.
  destruct (truthy email); [ | congruence ].
  destruct (User.findByEmail email st);
    [ destruct (negb _); [ discriminate | ] | ];
    injection H as <-; now rewrite lookup_insert_ne.
Qed.

Lemma update_password_keys P e password d d' k :
  update_password P e password d = Some d' ->
  k <> "password" -> d' !! k = d !! k.
Proof.
  unfold update_password. intros H Hk.
  destruct (truthy password); [ | congruence ].
  destruct (hash P e password); [ | discriminate ].
  injection H as <-. now rewrite lookup_insert_ne.
Qed.

(** [updateById] rewrites one record in place and, in it, only
    [updatedAt] and the properties [userData] has. *)
Lemma updateById_frame id (userData : obj) now st :
  let st' := snd (User.updateById id userData now st) in
  nextUserId st' = nextUserId st /\
  length (users st') = length (users st) /\
  forall (i : nat) (u : obj),
    users st !! i = Some u ->
    exists u' : obj,
      users st' !! i = Some u' /\
      forall k, k <> "updatedAt" -> userData !! k = None -> u' !! k = u !! k.
Proof.
  unfold User.updateById.
  destruct (findIndex (User.has_id id) (users st)) as [i0 | ];
    [ destruct (users st !! i0) as [old | ] eqn:Hold | ]; simpl;
    try (repeat split; eauto; fail).
  repeat split; [ apply length_insert | ].
  intros i u Hu. destruct (decide (i = i0)) as [-> | Hne].
  - rewrite list_lookup_insert_eq by (eapply lookup_lt_Some; eauto).
    eexists. split; [ reflexivity | ]. intros k Hk Hd.
    rewrite lookup_insert_ne by congruence.
    rewrite lookup_union_r by assumption. congruence.
  - rewrite list_lookup_insert_ne by congruence. eauto.
Qed.

(** C10: whatever the body of an update holds and whoever sends it,
    every stored record keeps its [id] and its [role]: the route writes
    only [username], [email], [password] and [updatedAt], in place, and
    neither adds nor removes a record nor moves the id counter. *)
Theorem put_user_by_id_frame (P : platform) (req : request) (e : env)
    (st : store) :
  let st' := snd (put_user_by_id P req e st) in
  nextUserId st' = nextUserId st /\
  length (users st') = length (users st) /\
  forall (i : nat) (u : obj),
    users st !! i = Some u ->
    exists u' : obj,
      users st' !! i = Some u' /\
      u' !! "id" = u !! "id" /\
      u' !! "role" = u !! "role" /\
      forall k, ~ patchable k -> u' !! k = u !! k.
Proof.
  assert (forall st' : store,
    (nextUserId st' = nextUserId st /\
     length (users st') = length (users st) /\
     forall (i : nat) (u : obj),
       users st !! i = Some u ->
       exists u' : obj,
         users st' !! i = Some u' /\
         forall k, ~ patchable k -> u' !! k = u !! k) ->
    nextUserId st' = nextUserId st /\
    length (users st') = length (users st) /\
    forall (i : nat) (u : obj),
      users st !! i = Some u ->
      exists u' : obj,
        users st' !! i = Some u' /\
        u' !! "id" = u !! "id" /\
        u' !! "role" = u !! "role" /\
        forall k, ~ patchable k -> u' !! k = u !! k) as Hweak.
  { intros st' (Hn & Hl & Hf). repeat split; auto.
    intros i u Hu. destruct (Hf i u Hu) as (u' & Hu' & Hk).
    exists u'. repeat split; auto; apply Hk; unfold patchable;
      intros [H | [H | [H | H]]]; discriminate. }
  cbv zeta. apply Hweak. clear Hweak.
  assert (nextUserId st = nextUserId st /\
          length (users st) = length (users st) /\
          forall (i : nat) (u : obj),
            users st !! i = Some u ->
            exists u' : obj,
              users st !! i = Some u' /\
              forall k, ~ patchable k -> u' !! k = u !! k) as Hsame
    by (repeat split; eauto).
  unfold put_user_by_id.
  destruct (_ && _); [ exact Hsame | ].
  destruct (update_username _ _ st ∅) as [r | d1] eqn:H1; [ exact Hsame | ].
  destruct (update_email _ _ st d1) as [r | d2] eqn:H2; [ exact Hsame | ].
  destruct (update_password P e _ d2) as [d3 | ] eqn:H3; [ | exact Hsame ].
  pose proof (updateById_frame (prop (req_params req) "id") d3 (env_now e) st)
    as (Hn & Hl & Hf).
  destruct (User.updateById _ d3 _ st) as [[u1 | ] st1]; simpl in *;
    (repeat split; auto; intros i u Hu;
     destruct (Hf i u Hu) as (u' & Hu' & Hk);
     exists u'; split; [ exact Hu' | ];
     intros k Hp; apply Hk;
     [ intros ->; apply Hp; unfold patchable; auto
     | rewrite (update_password_keys _ _ _ _ _ k H3),
               (update_email_keys _ _ _ _ _ k H2),
               (update_username_keys _ _ _ _ _ k H1);
       [ apply lookup_empty | .. ];
       intros ->; apply Hp; unfold patchable; auto ]).
Qed.

Example put_role_is_ignored :
  let body := <["role" := VStr "admin"]>
              (<["id" := VNum 1]> (<["username" := VStr "mallory"]> ∅)) in
  let st' := snd (put_user_by_id stub_platform (as_user alice_claims "2" body)
                    an_env scenario_store) in
  (fun u : obj => (u !! "id", u !! "role", u !! "username")) <$> users st'
  = [ (Some (VNum 1), Some (VStr "admin"), Some (VStr "admin"));
      (Some (VNum 2), Some (VStr "user"), Some (VStr "mallory")) ].
Proof. reflexivity. Qed.

(** ** GET /users *)

Lemma window_from {A} (l : list A) lo hi : forall i,
  lo <= i -> window l i lo hi = take (Z.to_nat (hi - i)) l.
Proof.
  induction l as [ | x r IH ]; intros i Hi; simpl.
  - now rewrite take_nil.
  - rewrite IH by lia.
    destruct (lo <=? i) eqn:E1; [ | lia ].
    destruct (i <? hi) eqn:E2; simpl.
    + replace (Z.to_nat (hi - i)) with (S (Z.to_nat (hi - (i + 1)))) by lia.
      reflexivity.
    + replace (Z.to_nat (hi - (i + 1))) with O by lia.
      replace (Z.to_nat (hi - i)) with O by lia. reflexivity.
Qed.

Lemma window_take_drop {A} (l : list A) lo hi : forall i,
  i <= lo ->
  window l i lo hi = take (Z.to_nat (hi - lo)) (drop (Z.to_nat (lo - i)) l).
Proof.
  induction l as [ | x r IH ]; intros i Hi.
  - simpl. now rewrite drop_nil, take_nil.
  - destruct (Z.eq_dec i lo) as [-> | Hne].
    + rewrite window_from by lia.
      replace (Z.to_nat (lo - lo)) with O by lia. reflexivity.
    + simpl. destruct (lo <=? i) eqn:E1; [ lia | ]. simpl.
      rewrite IH by lia.
      replace (Z.to_nat (lo - i)) with (S (Z.to_nat (lo - (i + 1)))) by lia.
      reflexivity.
Qed.

(** On indices that are not negative, [slice] is the window. *)
Lemma js_slice_window {A} (l : list A) s e :
  0 <= s -> 0 <= e -> js_slice l s e = window l 0 s e.
Proof.
  intros Hs He. rewrite window_take_drop by lia.
  unfold js_slice, slice_index.
  destruct (s <? 0) eqn:E1; [ lia | ]. destruct (e <? 0) eqn:E2; [ lia | ].
  rewrite Z.sub_0_r.
  destruct (Z_lt_le_dec s (Z.of_nat (length l))) as [Hlt | Hge].
  - rewrite (Z.min_l s) by lia.
    destruct (Z_le_gt_dec e (Z.of_nat (length l))) as [Hle | Hgt].
    + now rewrite (Z.min_l e) by lia.
    + rewrite (Z.min_r e) by lia.
      rewrite !take_ge; [ reflexivity | | ]; rewrite length_drop; lia.
  - rewrite (Z.min_r s) by lia.
    rewrite !drop_ge by lia. now rewrite !take_nil.
Qed.

Lemma window_beyond {A} (l : list A) lo hi :
  Z.of_nat (length l) <= lo -> window l 0 lo hi = [].
Proof.
  intros H. rewrite window_take_drop by lia.
  rewrite drop_ge by lia. apply take_nil.
Qed.

Lemma int_or_num q d n : parseInt q = VNum n -> n <> 0 -> int_or q d = n.
Proof.
  intros H Hn. unfold int_or. rewrite H.
  destruct (n =? 0) eqn:E; [ lia | reflexivity ].
Qed.

Lemma int_or_default q d :
  parseInt q = VNaN \/ parseInt q = VNum 0 -> int_or q d = d.
Proof. unfold int_or. intros [-> | ->]; reflexivity. Qed.

(** C8, as stated, fails at page 0: the route reads a page of 0 as the
    default page 1 and lists the first user, where the window
    [[-1, 0)] of the claim is empty. *)
Lemma list_users_page_zero : ~ list_users_as_stated.
Proof.
  intros H.
  destruct (H (with_query page_zero_query (as_user admin_claims "" ∅))
              an_env scenario_store 0 1 eq_refl eq_refl eq_refl) as [_ Hu].
  vm_compute in Hu. discriminate Hu.
Qed.

Example list_users_page_zero_lists :
  body_field (fst (get_users (with_query page_zero_query
                                (as_user admin_claims "" ∅))
                     an_env scenario_store)) "users"
  = VArr [VObj (withoutPassword (admin_record "boot"))].
Proof. reflexivity. Qed.

(** A negative page is not caught by the default: [slice] counts
    negative indices from the end of the array. *)
Example list_users_negative_page :
  let r := fst (get_users (with_query page_minus_one_query
                             (as_user admin_claims "" ∅))
                  an_env scenario_store) in
  body_field r "users" = VArr [VObj (withoutPassword (admin_record "boot"))] /\
  spec_page (User.findAll scenario_store) (-1) 1 = [].
Proof. split; reflexivity. Qed.

(** C8, amended: the list is for admins only: anyone else is answered
    403 "Admin access required" and the store is left alone.  For an
    admin, with the page and the page size the route works with both at
    least 1, the answer is 200 and lists the window
    [[skip, skip + pageSize)] of the public views, [skip = (page - 1) *
    pageSize], with the total count; a page beyond the last one lists
    nothing and is still a 200.  The page the route works with is the
    query's, read by [parseInt], when that is a number other than 0, and
    1 otherwise; the page size likewise, with default 10. *)
Theorem list_users_pages (req : request) (e : env) (st : store) :
  let qpage := prop (req_query req) "page" in
  let qlimit := prop (req_query req) "limit" in
  let page := int_or qpage 1 in
  let pageSize := int_or qlimit 10 in
  let r := fst (get_users req e st) in
  (~ is_admin req ->
   get_users req e st = (forbidden "Admin access required", st)) /\
  (is_admin req ->
   1 <= page ->
   1 <= pageSize ->
   status r = VNum 200 /\
   snd (get_users req e st) = st /\
   body_field r "users"
   = VArr (VObj <$> spec_page (User.findAll st) page pageSize) /\
   pagination_field r "total" = VNum (Z.of_nat (length (users st))) /\
   (Z.of_nat (length (users st)) <= (page - 1) * pageSize ->
    body_field r "users" = VArr []) /\
   (forall n, parseInt qpage = VNum n -> n <> 0 -> page = n) /\
   (parseInt qpage = VNaN \/ parseInt qpage = VNum 0 -> page = 1) /\
   (forall n, parseInt qlimit = VNum n -> n <> 0 -> pageSize = n) /\
   (parseInt qlimit = VNaN \/ parseInt qlimit = VNum 0 -> pageSize = 10)).
Proof.
  intros qpage qlimit page pageSize r.
  split; [ intros Hn; unfold get_users; apply not_admin_true in Hn;
           now rewrite Hn | ].
  intros Ha Hp Hs.
  assert (body_field r "users"
          = VArr (VObj <$> spec_page (User.findAll st) page pageSize)) as Hu.
  { subst r. unfold get_users. apply not_admin_false in Ha. rewrite Ha.
    unfold spec_page. fold qpage qlimit page pageSize.
    replace ((page - 1) * pageSize + pageSize) with (page * pageSize) by lia.
    rewrite <- js_slice_window by nia. reflexivity. }
  subst r. repeat split; try exact Hu.
  - unfold get_users. apply not_admin_false in Ha. now rewrite Ha.
  - unfold get_users. apply not_admin_false in Ha. now rewrite Ha.
  - unfold get_users. apply not_admin_false in Ha. rewrite Ha.
    unfold pagination_field, body_field, users_page, User.findAll. simpl.
    now rewrite length_map.
  - intros Hbeyond. rewrite Hu. unfold spec_page.
    rewrite window_beyond; [ reflexivity | ].
    unfold User.findAll. rewrite length_map. exact Hbeyond.
  - intros n. apply int_or_num.
  - apply int_or_default.
  - intros n. apply int_or_num.
  - apply int_or_default.
Qed.

Lemma list_users_pages_witness :
  body_field (fst (get_users (with_query page_two_query
                                (as_user admin_claims "" ∅))
                     an_env scenario_store)) "users"
  = VArr (VObj <$> spec_page (User.findAll scenario_store) 2 1).
Proof.
  apply (proj2 (list_users_pages
                  (with_query page_two_query (as_user admin_claims "" ∅))
                  an_env scenario_store));
    [ reflexivity | | ]; vm_compute; discriminate.
Defined.

Example list_users_not_admin :
  get_users (as_user alice_claims "" ∅) an_env scenario_store
  = (forbidden "Admin access required", scenario_store).
Proof. reflexivity. Qed.

(** ** GET /users/stats *)

(** The handler registered for [/stats] does what its name says. *)
Lemma get_stats_spec (req : request) (e : env) (st : store) :
  (~ is_admin req -> get_stats req e st = (forbidden "Admin access required", st)) /\
  (is_admin req ->
   get_stats req e st = (send 200 (VObj (User.getUserStats st)), st)).
Proof.
  unfold get_stats. split; intros H.
  - apply not_admin_true in H. now rewrite H.
  - apply not_admin_false in H. now rewrite H.
Qed.

Example scenario_stats :
  User.getUserStats scenario_store
  = <["totalUsers" := VNum 2]>
    (<["adminUsers" := VNum 1]>
    (<["regularUsers" := VNum 1]> ∅)).
Proof. reflexivity. Qed.

Lemma findById_NaN id st : parseInt id = VNaN -> User.findById id st = None.
Proof.
  intros H. unfold User.findById.
  destruct (List.find (User.has_id id) (users st)) as [u | ] eqn:Hf;
    [ | reflexivity ].
  apply List.find_some in Hf as [_ Hu]. unfold User.has_id in Hu.
  rewrite H, strict_eq_NaN_r in Hu. discriminate.
Qed.

(** C2, what the code does: [GET /stats] never reaches the stats
    handler.  The router tries [/:id] first, which matches with
    [id = "stats"]; for an admin the ownership test is skipped,
    [parseInt("stats")] is NaN, no record has that id, and the answer is
    404 User not found, in every store. *)
Theorem stats_route_shadowed (P : platform) (req : request) (e : env)
    (st : store) (claims : obj) :
  let req' := with_params {["id" := VStr "stats"]} req in
  authenticateToken P req' = inr (with_user claims req') ->
  prop claims "role" = VStr "admin" ->
  dispatch (users_router P) GET ["stats"] req e st
  = Some (user_not_found, st).
Proof.
  intros req' Hauth Hrole. simpl.
  change (<["id" := VStr "stats"]> ∅ : obj) with ({["id" := VStr "stats"]} : obj).
  fold req'. unfold through. rewrite Hauth.
  unfold get_user_by_id, not_admin. simpl. rewrite Hrole. simpl.
  rewrite findById_NaN by reflexivity. reflexivity.
Qed.

Lemma stats_route_shadowed_witness :
  dispatch (users_router stub_platform) GET ["stats"] admin_get an_env
    scenario_store
  = Some (user_not_found, scenario_store).
Proof.
  apply (stats_route_shadowed stub_platform admin_get an_env scenario_store
           admin_claims); reflexivity.
Defined.

(** The other routes of the router are reached as written. *)
Example users_root_dispatch :
  option_map (fun out => status (fst out))
    (dispatch (users_router stub_platform) GET [] admin_get an_env
       scenario_store)
  = Some (VNum 200).
Proof. reflexivity. Qed.

(** ** Uniqueness of emails and usernames *)

Lemma lookup_In {A} (l : list A) (i : nat) (x : A) : l !! i = Some x -> In x l.
Proof. intros H. apply list_elem_of_In. eapply list_elem_of_lookup_2; eauto. Qed.

Lemma unique_by_snoc k (us : list obj) (new : obj) :
  unique_by k us ->
  (forall u, In u us -> strict_eq (prop u k) (prop new k) = false) ->
  unique_by k (us ++ [new]).
Proof.
  intros Hu Hnew i j u v Hi Hj Heq.
  apply lookup_snoc_Some in Hi as [[Hi1 Hi2] | [Hi1 <-]];
  apply lookup_snoc_Some in Hj as [[Hj1 Hj2] | [Hj1 <-]].
  - eauto.
  - rewrite (Hnew u) in Heq by (eapply lookup_In; eauto). discriminate.
  - rewrite strict_eq_sym, (Hnew v) in Heq by (eapply lookup_In; eauto).
    discriminate.
  - congruence.
Qed.

Lemma unique_by_insert k (us : list obj) (i0 : nat) (old new : obj) :
  unique_by k us ->
  us !! i0 = Some old ->
  prop new k = prop old k \/
  (forall (j : nat) (v : obj), us !! j = Some v -> j <> i0 ->
     strict_eq (prop v k) (prop new k) = false) ->
  unique_by k (<[i0 := new]> us).
Proof.
  intros Hu Hold Hnew i j u v Hi Hj Heq.
  assert (i0 < length us)%nat as Hlt by (eapply lookup_lt_Some; eauto).
  destruct (decide (i = i0)) as [-> | Hne1];
    destruct (decide (j = i0)) as [-> | Hne2]; [ reflexivity | | | ].
  - rewrite list_lookup_insert_eq in Hi by assumption. injection Hi as <-.
    rewrite list_lookup_insert_ne in Hj by congruence.
    destruct Hnew as [Hsame | Hfresh].
    + rewrite Hsame in Heq. eauto.
    + rewrite strict_eq_sym, (Hfresh j v) in Heq by assumption. discriminate.
  - rewrite list_lookup_insert_eq in Hj by assumption. injection Hj as <-.
    rewrite list_lookup_insert_ne in Hi by congruence.
    destruct Hnew as [Hsame | Hfresh].
    + rewrite Hsame in Heq. eauto.
    + rewrite (Hfresh i u) in Heq by assumption. discriminate.
  - rewrite list_lookup_insert_ne in Hi by congruence.
    rewrite list_lookup_insert_ne in Hj by congruence. eauto.
Qed.

Lemma unique_by_delete k (us : list obj) (i0 : nat) :
  unique_by k us -> unique_by k (delete i0 us).
Proof.
  intros Hu i j u v Hi Hj Heq.
  destruct (decide (i < i0)%nat); destruct (decide (j < i0)%nat).
  - rewrite list_lookup_delete_lt in Hi, Hj by assumption. eauto.
  - rewrite list_lookup_delete_lt in Hi by assumption.
    rewrite list_lookup_delete_ge in Hj by lia.
    pose proof (Hu _ _ _ _ Hi Hj Heq). lia.
  - rewrite list_lookup_delete_ge in Hi by lia.
    rewrite list_lookup_delete_lt in Hj by assumption.
    pose proof (Hu _ _ _ _ Hi Hj Heq). lia.
  - rewrite list_lookup_delete_ge in Hi, Hj by lia.
    pose proof (Hu _ _ _ _ Hi Hj Heq). lia.
Qed.

Lemma In_delete {A} (l : list A) (i : nat) (x : A) : In x (delete i l) -> In x l.
Proof.
  intros H. apply list_elem_of_In in H. apply list_elem_of_In.
  exact (sublist_subseteq _ _ (sublist_delete l i) x H).
Qed.

Lemma initial_store_ok boot : store_ok (initial_store boot).
Proof.
  split.
  - intros u [<- | []]. exists 1. split; [ reflexivity | simpl; lia ].
  - intros i j u v Hi Hj _. apply lookup_lt_Some in Hi, Hj. simpl in *. lia.
  - intros i j u v Hi Hj _. apply lookup_lt_Some in Hi, Hj. simpl in *. lia.
  - intros i j u v Hi Hj _. apply lookup_lt_Some in Hi, Hj. simpl in *. lia.
Qed.

Lemma find_none_by k x (us : list obj) :
  List.find (fun u => strict_eq (prop u k) x) us = None ->
  forall u, In u us -> strict_eq (prop u k) x = false.
Proof. intros H u Hu. exact (List.find_none _ _ H u Hu). Qed.

Lemma create_ok (username email hashed : value) (now : string) (st : store) :
  let userData : obj :=
    <["username" := username]>
    (<["email" := email]> (<["password" := hashed]> ∅)) in
  store_ok st ->
  User.findByEmail email st = None ->
  User.findByUsername username st = None ->
  store_ok (snd (User.create userData now st)).
Proof.
  intros userData [Hids Hid Hem Hun] Hemail Hname.
  unfold User.create. split; simpl.
  - intros u Hu. unfold ids_below in Hids. simpl.
    apply in_app_or in Hu as [Hu | [<- | []]].
    + destruct (Hids u Hu) as (n & Hn & Hlt). exists n. split; [ exact Hn | lia ].
    + exists (nextUserId st). split; [ reflexivity | lia ].
  - apply unique_by_snoc; [ exact Hid | ].
    intros u Hu. destruct (Hids u Hu) as (n & -> & Hlt).
    change (strict_eq (VNum n) (VNum (nextUserId st)) = false).
    simpl. lia.
  - apply unique_by_snoc; [ exact Hem | ].
    intros u Hu. exact (find_none_by _ _ _ Hemail u Hu).
  - apply unique_by_snoc; [ exact Hun | ].
    intros u Hu. exact (find_none_by _ _ _ Hname u Hu).
Qed.

Lemma post_register_ok P : preserves (post_register P).
Proof.
  intros req e st Hok. unfold post_register.
  destruct (User.findByEmail _ st) eqn:Hemail; [ exact Hok | ].
  destruct (User.findByUsername _ st) eqn:Hname; [ exact Hok | ].
  destruct (hash P e _) as [hashed | ]; [ | exact Hok ].
  match goal with |- context [User.create ?d ?n st] =>
    pose proof (create_ok _ _ hashed n st Hok Hemail Hname) as Hnew;
    destruct (User.create d n st) as [newUser st'] end.
  simpl in Hnew. destruct (sign P e newUser); exact Hnew.
Qed.

Lemma delete_user_by_id_ok : preserves delete_user_by_id.
Proof.
  intros req e st Hok. unfold delete_user_by_id.
  destruct (not_admin req); [ exact Hok | ].
  destruct (strict_eq _ _); [ exact Hok | ].
  unfold User.deleteById.
  destruct (findIndex _ (users st)) as [i0 | ]; [ | exact Hok ]. simpl.
  destruct Hok as [Hids Hid Hem Hun]. split; simpl.
  - intros u Hu. apply Hids. eapply In_delete; eauto.
  - now apply unique_by_delete.
  - now apply unique_by_delete.
  - now apply unique_by_delete.
Qed.

(** What the two uniqueness checks of an update establish. *)
Lemma update_username_checked username id st d d' :
  update_username username id st d = inr d' ->
  d' = d \/
  (d' = <["username" := username]> d /\
   (User.findByUsername username st = None \/
    exists ex, User.findByUsername username st = Some ex /\
               User.has_id id ex = true)).
Proof.
  unfold update_username. intros H.
  destruct (truthy username); [ | left; congruence ].
  destruct (User.findByUsername username st) as [ex | ] eqn:Hf.
  - destruct (strict_eq (prop ex "id") (parseInt id)) eqn:Hid; simpl in H;
      [ | discriminate ].
    injection H as <-. right. split; [ reflexivity | ]. right. eauto.
  - injection H as <-. right. auto.
Qed.

Lemma update_email_checked email id st d d' :
  update_email email id st d = inr d' ->
  d' = d \/
  (d' = <["email" := email]> d /\
   (User.findByEmail email st = None \/
    exists ex, User.findByEmail email st = Some ex /\
               User.has_id id ex = true)).
Proof.
  unfold update_email. intros H.
  destruct (truthy email); [ | left; congruence ].
  destruct (User.findByEmail email st) as [ex | ] eqn:Hf.
  - destruct (strict_eq (prop ex "id") (parseInt id)) eqn:Hid; simpl in H;
      [ | discriminate ].
    injection H as <-. right. split; [ reflexivity | ]. right. eauto.
  - injection H as <-. right. auto.
Qed.

(** When the holder of [x], if any, is the target of the update, no
    other record holds [x]. *)
Lemma others_differ k x id (us : list obj) (i0 : nat) (old : obj) :
  unique_by "id" us ->
  unique_by k us ->
  us !! i0 = Some old ->
  User.has_id id old = true ->
  (List.find (fun u => strict_eq (prop u k) x) us = None \/
   exists ex, List.find (fun u => strict_eq (prop u k) x) us = Some ex /\
              User.has_id id ex = true) ->
  forall (j : nat) (v : obj), us !! j = Some v -> j <> i0 ->
    strict_eq (prop v k) x = false.
Proof.
  intros Hid Hk Hold Hold_id [Hnone | (ex & Hf & Hex)] j v Hv Hne.
  - eapply find_none_by; eauto. eapply lookup_In; eauto.
  - apply List.find_some in Hf as [Hin Hx].
    apply list_elem_of_In, list_elem_of_lookup_1 in Hin as [j0 Hj0].
    unfold User.has_id in Hold_id, Hex.
    apply strict_eq_parseInt in Hold_id as (n & Hn1 & Hn2).
    apply strict_eq_parseInt in Hex as (m & Hm1 & Hm2).
    assert (j0 = i0) as ->.
    { apply (Hid j0 i0 ex old Hj0 Hold). rewrite Hn1, Hm1. simpl.
      apply Z.eqb_eq. congruence. }
    assert (ex = old) as -> by congruence.
    destruct (strict_eq (prop v k) x) eqn:Hvx; [ | reflexivity ].
    exfalso. apply Hne. apply (Hk j i0 v old Hv Hold).
    apply strict_eq_true in Hvx. apply strict_eq_true in Hx as Hx'.
    rewrite Hvx. rewrite Hx' in Hx |- *. exact Hx.
Qed.

Lemma updateById_ok id (d : obj) now st :
  store_ok st ->
  d !! "id" = None ->
  (d !! "username" = None \/
   exists x, d !! "username" = Some x /\
     (User.findByUsername x st = None \/
      exists ex, User.findByUsername x st = Some ex /\ User.has_id id ex = true)) ->
  (d !! "email" = None \/
   exists x, d !! "email" = Some x /\
     (User.findByEmail x st = None \/
      exists ex, User.findByEmail x st = Some ex /\ User.has_id id ex = true)) ->
  store_ok (snd (User.updateById id d now st)).
Proof.
  intros Hok Hd_id Hd_name Hd_email. unfold User.updateById.
  destruct (findIndex (User.has_id id) (users st)) as [i0 | ] eqn:Hi0;
    [ | exact Hok ].
  destruct (users st !! i0) as [old | ] eqn:Hold; [ | exact Hok ]. simpl.
  destruct (findIndex_Some _ _ _ Hi0) as (l1 & u0 & l2 & Hl & Hlen & Hu0 & _).
  assert (u0 = old) as ->.
  { rewrite Hl in Hold. subst i0.
    rewrite lookup_app_r, Nat.sub_diag in Hold by lia. simpl in Hold. congruence. }
  set (new := <["updatedAt" := VStr now]> (d ∪ old)).
  assert (forall k, k <> "updatedAt" -> d !! k = None -> prop new k = prop old k)
    as Hkeep.
  { intros k Hk Hn. unfold prop, new.
    rewrite lookup_insert_ne by congruence. now rewrite lookup_union_r. }
  assert (forall k x, k <> "updatedAt" -> d !! k = Some x -> prop new k = x)
    as Hset.
  { intros k x Hk Hs. unfold prop, new.
    rewrite lookup_insert_ne by congruence.
    now rewrite (lookup_union_Some_l _ _ _ _ Hs). }
  destruct Hok as [Hids Hid Hem Hun]. split; cbn [users nextUserId].
  - intros u Hu. cbn [users nextUserId] in *.
    apply list_elem_of_In, list_elem_of_lookup_1 in Hu as [i Hi].
    destruct (decide (i = i0)) as [-> | Hne].
    + rewrite list_lookup_insert_eq in Hi by (eapply lookup_lt_Some; eauto).
      injection Hi as <-. rewrite Hkeep by (auto; discriminate).
      apply Hids. eapply lookup_In; eauto.
    + rewrite list_lookup_insert_ne in Hi by congruence.
      apply Hids. eapply lookup_In; eauto.
  - apply (unique_by_insert _ _ _ old new Hid Hold).
    left. apply Hkeep; auto; discriminate.
  - apply (unique_by_insert _ _ _ old new Hem Hold).
    destruct Hd_email as [Hn | (x & Hx & Hfree)].
    + left. apply Hkeep; auto; discriminate.
    + right. rewrite (Hset "email" x) by (auto; discriminate).
      eapply others_differ; eauto.
  - apply (unique_by_insert _ _ _ old new Hun Hold).
    destruct Hd_name as [Hn | (x & Hx & Hfree)].
    + left. apply Hkeep; auto; discriminate.
    + right. rewrite (Hset "username" x) by (auto; discriminate).
      eapply others_differ; eauto.
Qed.

Lemma put_user_by_id_ok P : preserves (put_user_by_id P).
Proof.
  intros req e st Hok. unfold put_user_by_id.
  destruct (_ && _); [ exact Hok | ].
  destruct (update_username _ _ st ∅) as [r | d1] eqn:H1; [ exact Hok | ].
  destruct (update_email _ _ st d1) as [r | d2] eqn:H2; [ exact Hok | ].
  destruct (update_password P e _ d2) as [d3 | ] eqn:H3; [ | exact Hok ].
  pose proof (updateById_ok (prop (req_params req) "id") d3 (env_now e) st Hok)
    as Hnew.
  assert (forall k, k <> "username" -> k <> "email" -> k <> "password" ->
                    d3 !! k = None) as Hkeys.
  { intros k Hk1 Hk2 Hk3.
    rewrite (update_password_keys _ _ _ _ _ k H3),
            (update_email_keys _ _ _ _ _ k H2),
            (update_username_keys _ _ _ _ _ k H1) by assumption.
    apply lookup_empty. }
  assert (store_ok (snd (User.updateById (prop (req_params req) "id") d3
                           (env_now e) st))) as Hres.
  { apply Hnew.
    - apply Hkeys; discriminate.
    - rewrite (update_password_keys _ _ _ _ _ "username" H3),
              (update_email_keys _ _ _ _ _ "username" H2) by discriminate.
      destruct (update_username_checked _ _ _ _ _ H1) as [-> | [-> Hfree]].
      + left. apply lookup_empty.
      + right. eexists. split; [ apply lookup_insert_eq | exact Hfree ].
    - rewrite (update_password_keys _ _ _ _ _ "email" H3) by discriminate.
      destruct (update_email_checked _ _ _ _ _ H2) as [-> | [-> Hfree]].
      + left. rewrite (update_username_keys _ _ _ _ _ "email" H1) by discriminate.
        apply lookup_empty.
      + right. eexists. split; [ apply lookup_insert_eq | exact Hfree ]. }
  destruct (User.updateById _ d3 _ st) as [[u | ] st']; exact Hres.
Qed.

Lemma through_ok (m : middleware) (h : handler) :
  preserves h -> preserves (through m h).
Proof.
  intros Hh req e st Hok. unfold through.
  destruct (m req) as [r | req']; [ exact Hok | now apply Hh ].
Qed.

Lemma unchanged_ok (h : handler) :
  (forall req e st, snd (h req e st) = st) -> preserves h.
Proof. intros Hh req e st Hok. now rewrite Hh. Qed.

Lemma dispatch_ok (routes : list route) m path req e st r st' :
  Forall (fun rt => preserves (rt_handler rt)) routes ->
  store_ok st ->
  dispatch routes m path req e st = Some (r, st') ->
  store_ok st'.
Proof.
  intros Hall Hok. induction Hall as [ | rt rest Hrt _ IH ]; simpl; [ discriminate | ].
  destruct (method_eqb (rt_method rt) m); [ | exact IH ].
  destruct (match_path (rt_path rt) path ∅) as [ps | ]; [ | exact IH ].
  intros [= H]. specialize (Hrt (with_params ps req) e st Hok).
  now rewrite H in Hrt.
Qed.

Lemma auth_router_ok P :
  Forall (fun rt => preserves (rt_handler rt)) (auth_router P).
Proof.
  unfold auth_router. repeat apply List.Forall_cons; try apply List.Forall_nil;
    simpl; apply through_ok.
  - apply post_register_ok.
  - apply unchanged_ok. intros req e st. unfold post_login.
    destruct (User.findByEmail _ st) as [user | ]; [ | reflexivity ].
    destruct (compare P _ _) as [ [ | ] | ]; try reflexivity.
    destruct (sign P e user); reflexivity.
  - apply unchanged_ok. intros req e st. unfold get_me.
    destruct (User.findById _ st); reflexivity.
Qed.

Lemma users_router_ok P :
  Forall (fun rt => preserves (rt_handler rt)) (users_router P).
Proof.
  unfold users_router. repeat apply List.Forall_cons; try apply List.Forall_nil;
    simpl; repeat apply through_ok.
  - apply unchanged_ok. intros req e st. unfold get_users.
    destruct (not_admin req); reflexivity.
  - apply unchanged_ok. intros req e st. unfold get_user_by_id.
    destruct (_ && _); [ reflexivity | ].
    destruct (User.findById _ st); reflexivity.
  - apply put_user_by_id_ok.
  - apply delete_user_by_id_ok.
  - apply unchanged_ok. intros req e st. unfold get_stats.
    destruct (not_admin req); reflexivity.
Qed.

Lemma served_in_turn_ok P boot st : served_in_turn P boot st -> store_ok st.
Proof.
  induction 1 as [ | st m path req e r st' _ IH Hd | st m path req e r st' _ IH Hd ].
  - apply initial_store_ok.
  - eapply dispatch_ok; eauto using auth_router_ok.
  - eapply dispatch_ok; eauto using users_router_ok.
Qed.

Lemma find_holder k x (us : list obj) (u : obj) :
  unique_by k us ->
  In u us ->
  strict_eq (prop u k) x = true ->
  List.find (fun v => strict_eq (prop v k) x) us = Some u.
Proof.
  intros Hk Hin Hu.
  destruct (List.find (fun v => strict_eq (prop v k) x) us) as [ex | ] eqn:Hf.
  - apply List.find_some in Hf as [Hex Hx].
    apply list_elem_of_In, list_elem_of_lookup_1 in Hin as [i Hi].
    apply list_elem_of_In, list_elem_of_lookup_1 in Hex as [j Hj].
    assert (j = i) as ->; [ | congruence ].
    apply (Hk j i ex u Hj Hi).
    apply strict_eq_true in Hx as Hx'. apply strict_eq_true in Hu as Hu'.
    rewrite Hu'. rewrite Hx' in Hx |- *. exact Hx.
  - rewrite (List.find_none _ _ Hf u Hin) in Hu. discriminate.
Qed.

Lemma find_some_holder k x (us : list obj) :
  (exists u, In u us /\ strict_eq (prop u k) x = true) ->
  exists ex, List.find (fun v => strict_eq (prop v k) x) us = Some ex.
Proof.
  intros (u & Hin & Hu).
  destruct (List.find (fun v => strict_eq (prop v k) x) us) as [ex | ] eqn:Hf;
    [ eauto | ].
  rewrite (List.find_none _ _ Hf u Hin) in Hu. discriminate.
Qed.

Lemma filter_none {A} (f : A -> bool) (l : list A) :
  (forall x, In x l -> f x = false) -> List.filter f l = [].
Proof.
  induction l as [ | x r IH ]; simpl; intros H; [ reflexivity | ].
  rewrite (H x) by auto. apply IH. auto.
Qed.

(** Registration refuses an email, then a username, that a record
    already holds, and stores nothing. *)
Lemma post_register_conflicts P req e st :
  let email := prop (req_body req) "email" in
  let username := prop (req_body req) "username" in
  ((exists u, In u (users st) /\ strict_eq (prop u "email") email = true) ->
   post_register P req e st = (email_exists, st)) /\
  ((forall u, In u (users st) -> strict_eq (prop u "email") email = false) ->
   (exists u, In u (users st) /\ strict_eq (prop u "username") username = true) ->
   post_register P req e st = (username_exists, st)).
Proof.
  intros email username. unfold post_register. fold email username. split.
  - intros Hex. unfold User.findByEmail.
    destruct (find_some_holder _ _ _ Hex) as [ex ->]. reflexivity.
  - intros Hnone Hex. unfold User.findByEmail, User.findByUsername.
    destruct (List.find _ (users st)) as [u | ] eqn:Hf.
    + apply List.find_some in Hf as [Hin Hu].
      rewrite Hnone in Hu by assumption. discriminate.
    + destruct (find_some_holder _ _ _ Hex) as [ex ->]. reflexivity.
Qed.

(** After a registration that succeeded, exactly one record holds its
    email, and registering that email again is refused. *)
Lemma post_register_twice P req1 e1 req2 e2 st (a : string) :
  prop (req_body req1) "email" = VStr a ->
  prop (req_body req2) "email" = VStr a ->
  status (fst (post_register P req1 e1 st)) = VNum 201 ->
  let st1 := snd (post_register P req1 e1 st) in
  count_email a st1 = 1%nat /\
  post_register P req2 e2 st1 = (email_exists, st1).
Proof.
  intros Ha1 Ha2 Hst st1.
  assert (count_email a st1 = 1%nat) as Hcount.
  { subst st1. revert Hst. unfold post_register. rewrite Ha1.
    destruct (User.findByEmail (VStr a) st) eqn:Hemail; [ discriminate | ].
    destruct (User.findByUsername _ st); [ discriminate | ].
    destruct (hash P e1 _) as [hashed | ]; [ | discriminate ].
    unfold User.create.
    match goal with |- context [sign P e1 ?u] => destruct (sign P e1 u) end;
      [ | discriminate ].
    intros _. unfold count_email. cbn [snd users].
    rewrite List.filter_app, filter_none
      by (intros u Hu; exact (find_none_by _ _ _ Hemail u Hu)).
    cbn [app List.filter].
    match goal with |- context [strict_eq ?x ?y] =>
      change (strict_eq x y) with (strict_eq (VStr a) (VStr a)) end.
    now rewrite strict_eq_str_refl. }
  split; [ exact Hcount | ].
  apply (proj1 (post_register_conflicts P req2 e2 st1)). rewrite Ha2.
  unfold count_email in Hcount.
  destruct (List.filter _ (users st1)) as [ | u r ] eqn:Hf; [ discriminate | ].
  exists u.
  apply (proj1 (List.filter_In (fun v => strict_eq (prop v "email") (VStr a))
                  u (users st1))).
  rewrite Hf. now left.
Qed.

(** An update refuses a username or an email held by a record other
    than its target, and changes nothing. *)
Lemma put_user_by_id_conflicts P req e st :
  store_ok st ->
  let id := prop (req_params req) "id" in
  let username := prop (req_body req) "username" in
  let email := prop (req_body req) "email" in
  is_admin req \/ is_owner req id ->
  (truthy username = true ->
   (exists u, In u (users st) /\
              strict_eq (prop u "username") username = true /\
              User.has_id id u = false) ->
   put_user_by_id P req e st = (username_taken, st)) /\
  (truthy email = true ->
   (exists u, In u (users st) /\
              strict_eq (prop u "email") email = true /\
              User.has_id id u = false) ->
   put_user_by_id P req e st = (username_taken, st) \/
   put_user_by_id P req e st = (email_taken, st)).
Proof.
  intros Hok id username email Hallowed.
  unfold put_user_by_id. fold id username email.
  rewrite allowed_cases by assumption. split.
  - intros Ht (u & Hin & Hu & Hid).
    unfold update_username. rewrite Ht. unfold User.findByUsername.
    rewrite (find_holder _ _ _ u (ok_username _ Hok) Hin Hu).
    unfold User.has_id in Hid. rewrite Hid. reflexivity.
  - intros Ht (u & Hin & Hu & Hid).
    destruct (update_username username id st ∅) as [r | d1] eqn:H1.
    + left. unfold update_username in H1.
      destruct (truthy username); [ | discriminate ].
      destruct (User.findByUsername username st); [ | discriminate ].
      destruct (negb _); [ | discriminate ].
      injection H1 as <-. reflexivity.
    + right. unfold update_email. rewrite Ht. unfold User.findByEmail.
      rewrite (find_holder _ _ _ u (ok_email _ Hok) Hin Hu).
      unfold User.has_id in Hid. rewrite Hid. reflexivity.
Qed.

(** Served one request at a time, the server never holds two records
    with one email or one username.  Registration answers 400 when a
    record holds the email, checked first, or the username, checked
    second, and adds nothing; so after a successful registration exactly
    one record holds the email and a second registration of it is
    refused.  An update by an admin or the owner answers 400 when the new
    username or email is held by a record with another id, and changes
    nothing. *)
Lemma unique_when_served_in_turn (P : platform) (boot : string) (st : store) :
  served_in_turn P boot st ->
  (unique_by "email" (users st) /\ unique_by "username" (users st)) /\
  (forall req e,
     let email := prop (req_body req) "email" in
     let username := prop (req_body req) "username" in
     ((exists u, In u (users st) /\ strict_eq (prop u "email") email = true) ->
      post_register P req e st = (email_exists, st)) /\
     ((forall u, In u (users st) -> strict_eq (prop u "email") email = false) ->
      (exists u, In u (users st) /\
                 strict_eq (prop u "username") username = true) ->
      post_register P req e st = (username_exists, st))) /\
  (forall req1 e1 req2 e2 (a : string),
     prop (req_body req1) "email" = VStr a ->
     prop (req_body req2) "email" = VStr a ->
     status (fst (post_register P req1 e1 st)) = VNum 201 ->
     let st1 := snd (post_register P req1 e1 st) in
     count_email a st1 = 1%nat /\
     post_register P req2 e2 st1 = (email_exists, st1)) /\
  (forall req e,
     let id := prop (req_params req) "id" in
     let username := prop (req_body req) "username" in
     let email := prop (req_body req) "email" in
     is_admin req \/ is_owner req id ->
     (truthy username = true ->
      (exists u, In u (users st) /\
                 strict_eq (prop u "username") username = true /\
                 User.has_id id u = false) ->
      put_user_by_id P req e st = (username_taken, st)) /\
     (truthy email = true ->
      (exists u, In u (users st) /\
                 strict_eq (prop u "email") email = true /\
                 User.has_id id u = false) ->
      put_user_by_id P req e st = (username_taken, st) \/
      put_user_by_id P req e st = (email_taken, st))).
Proof.
  intros Hreach. pose proof (served_in_turn_ok _ _ _ Hreach) as Hok.
  split; [ split; [ apply (ok_email _ Hok) | apply (ok_username _ Hok) ] | ].
  split; [ intros req e; apply post_register_conflicts | ].
  split; [ intros req1 e1 req2 e2 a; apply post_register_twice | ].
  intros req e. now apply put_user_by_id_conflicts.
Qed.

Example alice_registers_once :
  count_email "alice@x.com" scenario_store = 1%nat /\
  post_register stub_platform (as_user ∅ "" alice_again) an_env scenario_store
  = (email_exists, scenario_store).
Proof.
  apply (unique_when_served_in_turn stub_platform "boot" (initial_store "boot")
           (turn_boot stub_platform "boot"));
    reflexivity.
Qed.

Example put_taken_username :
  put_user_by_id stub_platform
    (as_user alice_claims "2" {["username" := VStr "admin"]}) an_env
    scenario_store
  = (username_taken, scenario_store).
Proof. reflexivity. Qed.

(** The uniqueness above is the work of the routes' checks: the model's
    [create] stores whatever it is handed. *)
Remark create_does_not_check :
  let st1 := snd (User.create alice_body "t1" (initial_store "boot")) in
  let st2 := snd (User.create alice_body "t2" st1) in
  ~ unique_by "email" (users st2).
Proof.
  intros st1 st2 H.
  specialize (H 1%nat 2%nat _ _ eq_refl eq_refl eq_refl). discriminate.
Qed.

(** ** POST /auth/register, two at a time *)

(** What the second half of a registration leaves behind. *)
Lemma register_commit_stores P req e st (p : string) :
  prop (req_body req) "password" = VStr p ->
  exists u,
    users (snd (register_commit P req e st)) = users st ++ [u] /\
    prop u "email" = prop (req_body req) "email" /\
    status (fst (register_commit P req e st)) <> VNum 400.
Proof.
  intros Hp. unfold register_commit. rewrite Hp. cbn [hash].
  unfold User.create.
  match goal with |- context [sign P e ?u] => destruct (sign P e u) end;
    cbn [fst snd users]; eexists; (split; [ reflexivity | ]);
    (split; [ reflexivity | discriminate ]).
Qed.

(** C4: the code does not keep what the claim says.  Two registrations
    with one email, each with a string password, that both made their
    look-ups before either came back from [bcrypt.hash] are both carried
    out: the store the server is left in holds two records with that
    email, and neither request is answered with the 400 of a conflict. *)
Theorem register_overlap_duplicates (P : platform) (boot : string)
    (req1 req2 : request) (e1 e2 : env) (st : store) (a p1 p2 : string) :
  reachable P boot st ->
  prop (req_body req1) "email" = VStr a ->
  prop (req_body req2) "email" = VStr a ->
  prop (req_body req1) "password" = VStr p1 ->
  prop (req_body req2) "password" = VStr p2 ->
  register_check req1 st = None ->
  register_check req2 st = None ->
  let out1 := register_commit P req1 e1 st in
  let out2 := register_commit P req2 e2 (snd out1) in
  reachable P boot (snd out2) /\
  count_email a (snd out2) = 2%nat /\
  ~ unique_by "email" (users (snd out2)) /\
  status (fst out1) <> VNum 400 /\
  status (fst out2) <> VNum 400.
Proof.
  intros Hreach Ha1 Ha2 Hp1 Hp2 Hc1 Hc2 out1 out2.
  assert (reachable P boot (snd out1)) as Hr1
    by (apply (reach_register_late P boot st st req1 e1); assumption).
  destruct (register_commit_stores P req1 e1 st p1 Hp1) as (u1 & Hu1 & He1 & Hs1).
  destruct (register_commit_stores P req2 e2 (snd out1) p2 Hp2)
    as (u2 & Hu2 & He2 & Hs2).
  fold out1 in Hu1, Hs1. fold out2 in Hu2, Hs2.
  rewrite Ha1 in He1. rewrite Ha2 in He2. rewrite Hu1 in Hu2.
  assert (forall u, In u (users st) -> strict_eq (prop u "email") (VStr a) = false)
    as Hnone.
  { unfold register_check in Hc1. rewrite Ha1 in Hc1.
    destruct (User.findByEmail (VStr a) st) eqn:Hf; [ discriminate | ].
    exact (find_none_by _ _ _ Hf). }
  split; [ | split; [ | split; [ | split ] ] ]; try assumption.
  - apply (reach_register_late P boot st (snd out1) req2 e2); assumption.
  - unfold count_email. rewrite Hu2, !List.filter_app, (filter_none _ _ Hnone).
    cbn [List.filter app]. rewrite He1, He2, strict_eq_str_refl. reflexivity.
  - intros Huniq. rewrite Hu2 in Huniq.
    assert (length (users st) = S (length (users st))) as Habs; [ | lia ].
    apply (Huniq (length (users st)) (S (length (users st))) u1 u2).
    + rewrite <- app_assoc. now apply list_lookup_middle.
    + apply list_lookup_middle. rewrite length_app. simpl. lia.
    + rewrite He1, He2. apply strict_eq_str_refl.
Qed.

Lemma register_overlap_duplicates_witness :
  count_email "alice@x.com"
    (snd (register_commit stub_platform (as_user ∅ "" alice_again) an_env
            (snd (register_commit stub_platform (as_user ∅ "" alice_body) an_env
                    (initial_store "boot")))))
  = 2%nat.
Proof.
  exact (proj1 (proj2
    (register_overlap_duplicates stub_platform "boot"
       (as_user ∅ "" alice_body) (as_user ∅ "" alice_again) an_env an_env
       (initial_store "boot") "alice@x.com" "Secret123" "Other456"
       (reach_boot stub_platform "boot")
       eq_refl eq_refl eq_refl eq_refl eq_refl eq_refl))).
Defined.

(** Both of them are told that they registered. *)
Example overlapping_registrations_answered :
  let out1 := register_commit stub_platform (as_user ∅ "" alice_body) an_env
                (initial_store "boot") in
  let out2 := register_commit stub_platform (as_user ∅ "" alice_again) an_env
                (snd out1) in
  status (fst out1) = VNum 201 /\ status (fst out2) = VNum 201 /\
  user_count (snd out2) = 3.
Proof. repeat split. Qed.

(** ** PUT /users/:id, seen from the router *)

(** The route runs [authenticateToken], then the validation chain, then
    the handler: a body the validation refuses is answered by the
    validation, before the requester's rights are looked at; a body it
    passes on meets the handler's own test first.  Neither changes the
    store. *)
Lemma put_route_invalid P req req1 r e st :
  authenticateToken P req = inr req1 ->
  validateUserUpdate P req1 = inl r ->
  through (authenticateToken P)
    (through (validateUserUpdate P) (put_user_by_id P)) req e st = (r, st).
Proof. intros H1 H2. unfold through. now rewrite H1, H2. Qed.

Lemma put_route_forbidden P req req1 req2 e st :
  authenticateToken P req = inr req1 ->
  validateUserUpdate P req1 = inr req2 ->
  ~ is_admin req2 ->
  ~ is_owner req2 (prop (req_params req2) "id") ->
  through (authenticateToken P)
    (through (validateUserUpdate P) (put_user_by_id P)) req e st
  = (forbidden "You can only update your own profile", st).
Proof.
  intros H1 H2 Ha Ho. unfold through. rewrite H1, H2.
  unfold put_user_by_id. now rewrite denied_cases.
Qed.

(** * Further properties of the model and the routes *)

(** ** The [User] model: what is written can be read back *)

Lemma find_app_skip {A} (p : A -> bool) (l1 l2 : list A) :
  (forall x, In x l1 -> p x = false) ->
  List.find p (l1 ++ l2) = List.find p l2.
Proof.
  induction l1 as [ | x r IH ]; simpl; intros H; [ reflexivity | ].
  rewrite (H x) by auto. apply IH. auto.
Qed.

Lemma find_app_hit {A} (p : A -> bool) (l1 l2 : list A) (x : A) :
  List.find p l1 = Some x -> List.find p (l1 ++ l2) = Some x.
Proof.
  induction l1 as [ | y r IH ]; simpl; [ discriminate | ].
  destruct (p y); auto.
Qed.

Lemma has_id_num (n : Z) (u : obj) :
  User.has_id (VNum n) u = true <-> prop u "id" = VNum n.
Proof.
  unfold User.has_id. simpl. split.
  - apply strict_eq_true.
  - intros ->. simpl. apply Z.eqb_refl.
Qed.

(** X1: a record made by [create] is found again under the id it was
    given, and [findById] returns the very view [create] returned,
    provided the stored ids are below the counter and the data handed to
    [create] names no id of its own. *)
Theorem create_findById (userData : obj) (now : string) (st : store) :
  ids_below st ->
  userData !! "id" = None ->
  User.findById (VNum (nextUserId st)) (snd (User.create userData now st))
  = Some (fst (User.create userData now st)) /\
  prop (fst (User.create userData now st)) "id" = VNum (nextUserId st).
Proof.
  intros Hids Hd. unfold User.create, User.findById. cbn [fst snd users].
  set (new := <["createdAt" := VStr now]> _).
  assert (prop new "id" = VNum (nextUserId st)) as Hnew.
  { unfold prop, new. rewrite !lookup_insert_ne by discriminate.
    rewrite lookup_union_r by assumption. now rewrite lookup_singleton_eq. }
  split.
  - rewrite find_app_skip.
    + simpl. unfold User.has_id at 1. rewrite Hnew. simpl.
      now rewrite Z.eqb_refl.
    + intros u Hu. destruct (Hids u Hu) as (n & Hn & Hlt).
      unfold User.has_id. rewrite Hn. simpl. lia.
  - unfold prop. rewrite withoutPassword_other by discriminate. exact Hnew.
Qed.

Lemma create_findById_witness :
  User.findById (VNum 2) (snd (User.create alice_body "t" (initial_store "boot")))
  = Some (fst (User.create alice_body "t" (initial_store "boot"))).
Proof.
  apply (create_findById alice_body "t" (initial_store "boot")).
  - apply initial_store_ok.
  - reflexivity.
Defined.

(** X2: after [updateById] has rewritten a record, [findById] under the
    same id returns the view [updateById] returned, when the update data
    names no id. *)
Theorem updateById_findById (id : value) (userData : obj) (now : string)
    (st st' : store) (view : obj) :
  userData !! "id" = None ->
  User.updateById id userData now st = (Some view, st') ->
  User.findById id st' = Some view.
Proof.
  intros Hd. unfold User.updateById, User.findById.
  destruct (findIndex (User.has_id id) (users st)) as [i0 | ] eqn:Hi0;
    [ | discriminate ].
  destruct (users st !! i0) as [old | ] eqn:Hold; [ | discriminate ].
  intros [= <- <-]. cbn [users].
  destruct (findIndex_Some _ _ _ Hi0) as (l1 & u0 & l2 & Hl & Hlen & Hu0 & Hl1).
  assert (u0 = old) as ->.
  { rewrite Hl in Hold. subst i0.
    rewrite lookup_app_r, Nat.sub_diag in Hold by lia. simpl in Hold. congruence. }
  rewrite Hl. subst i0.
  rewrite insert_app_r_alt, Nat.sub_diag by lia. cbn [insert list_insert].
  rewrite find_app_skip by assumption. simpl.
  set (new := <["updatedAt" := VStr now]> (userData ∪ old)).
  assert (User.has_id id new = true) as ->; [ | reflexivity ].
  unfold User.has_id in *. replace (prop new "id") with (prop old "id"); [ exact Hu0 | ].
  unfold prop, new. rewrite lookup_insert_ne by discriminate.
  now rewrite lookup_union_r.
Qed.

Lemma updateById_findById_witness :
  User.findById (VStr "1") (snd (User.updateById (VStr "1")
                                   {["email" := VStr "root@example.com"]} "t"
                                   (initial_store "boot")))
  = fst (User.updateById (VStr "1") {["email" := VStr "root@example.com"]} "t"
           (initial_store "boot")).
Proof.
  apply (updateById_findById (VStr "1") {["email" := VStr "root@example.com"]}
           "t" (initial_store "boot")); reflexivity.
Defined.

Lemma find_app_cases {A} (p : A -> bool) (l1 l2 : list A) :
  List.find p (l1 ++ l2) =
  match List.find p l1 with Some x => Some x | None => List.find p l2 end.
Proof.
  induction l1 as [ | y r IH ]; simpl; [ reflexivity | ].
  destruct (p y); auto.
Qed.

Lemma find_all_false {A} (p : A -> bool) (l : list A) :
  (forall x, In x l -> p x = false) -> List.find p l = None.
Proof.
  induction l as [ | y r IH ]; simpl; intros H; [ reflexivity | ].
  rewrite (H y) by auto. apply IH. auto.
Qed.

(** The routes and the model read an id through [parseInt] only. *)
Lemma has_id_parseInt (a b : value) (u : obj) :
  parseInt a = parseInt b -> User.has_id a u = User.has_id b u.
Proof. unfold User.has_id. now intros ->. Qed.

Lemma findById_parseInt (a b : value) (st : store) :
  parseInt a = parseInt b -> User.findById a st = User.findById b st.
Proof. unfold User.findById, User.has_id. now intros ->. Qed.

(** X3: when ids are unique, a successful [deleteById] removes one
    record, after which [findById] finds nothing under that id, while
    every other id is found exactly as before. *)
Theorem deleteById_findById (id : value) (st st' : store) :
  unique_by "id" (users st) ->
  User.deleteById id st = (true, st') ->
  User.findById id st' = None /\
  user_count st' = user_count st - 1 /\
  nextUserId st' = nextUserId st /\
  forall id', parseInt id' <> parseInt id ->
    User.findById id' st' = User.findById id' st.
Proof.
  intros Huniq. unfold User.deleteById.
  destruct (findIndex (User.has_id id) (users st)) as [i0 | ] eqn:Hi0;
    [ | discriminate ].
  intros [= <-].
  destruct (findIndex_Some _ _ _ Hi0) as (l1 & u & l2 & Hl & Hlen & Hu & Hl1).
  subst i0. unfold user_count, User.findById. cbn [users nextUserId].
  rewrite Hl, delete_middle.
  assert (forall x, In x l2 -> User.has_id id x = false) as Hl2.
  { intros x Hx. destruct (User.has_id id x) eqn:Hxid; [ | reflexivity ].
    apply list_elem_of_In, list_elem_of_lookup_1 in Hx as [j Hj].
    assert (length l1 = S (length l1 + j)) as Habs; [ | lia ].
    apply (Huniq _ _ u x).
    - rewrite Hl, lookup_app_r, Nat.sub_diag by lia. reflexivity.
    - rewrite Hl, lookup_app_r by lia.
      replace (S (length l1 + j) - length l1)%nat with (S j) by lia. exact Hj.
    - unfold User.has_id in Hu, Hxid.
      apply strict_eq_true in Hxid as Hx'. rewrite Hx'. exact Hu. }
  repeat split.
  - rewrite find_all_false; [ reflexivity | ].
    intros x Hx. apply in_app_or in Hx as [Hx | Hx]; auto.
  - rewrite !length_app. simpl. lia.
  - intros id' Hne. rewrite !find_app_cases. simpl.
    assert (User.has_id id' u = false) as ->; [ | reflexivity ].
    unfold User.has_id in *. destruct (strict_eq (prop u "id") (parseInt id')) eqn:E;
      [ | reflexivity ].
    apply strict_eq_true in E. apply strict_eq_true in Hu. congruence.
Qed.

Lemma deleteById_findById_witness :
  User.findById (VStr "2") (snd (User.deleteById (VStr "2") scenario_store))
  = None.
Proof.
  apply (deleteById_findById (VStr "2") scenario_store
           (snd (User.deleteById (VStr "2") scenario_store))).
  - intros i j u v Hi Hj H.
    destruct i as [ | [ | i ] ], j as [ | [ | j ] ]; try reflexivity;
      vm_compute in Hi, Hj; try discriminate;
      injection Hi as <-; injection Hj as <-; vm_compute in H; discriminate.
  - reflexivity.
Defined.

(** ** The id in the path *)

Lemma digit_of_10_of_16 (c : ascii) : digit_of 16 c = None -> digit_of 10 c = None.
Proof.
  unfold digit_of.
  destruct (if _ : bool then _ else _) as [v | ]; [ | reflexivity ].
  destruct (v <? 16) eqn:E; [ discriminate | ].
  intros _. destruct (v <? 10) eqn:E'; [ lia | reflexivity ].
Qed.

Lemma digits_suffix (radix : Z) (c : ascii) (t : string) :
  digit_of radix c = None ->
  forall (s : string) (acc : option Z),
    digits radix (String.append s (String c t)) acc = digits radix s acc.
Proof.
  intros Hc. induction s as [ | a r IH ]; intros acc; simpl.
  - now rewrite Hc.
  - destruct (digit_of radix a); [ apply IH | reflexivity ].
Qed.

Lemma is_ws2_lead (a b : ascii) :
  is_ws2 a b = true -> (128 <= nat_of_ascii a)%nat.
Proof.
  unfold is_ws2. intros H. apply andb_true_iff in H as [H _].
  apply Nat.eqb_eq in H. lia.
Qed.

Lemma is_ws3_lead (a b c : ascii) :
  is_ws3 a b c = true -> (128 <= nat_of_ascii a)%nat.
Proof.
  unfold is_ws3. intros H.
  destruct (Nat.ltb_spec (nat_of_ascii a) 128) as [Hlt | Hge]; [ | exact Hge ].
  exfalso. revert H.
  rewrite !(proj2 (Nat.eqb_neq (nat_of_ascii a) _)) by lia.
  discriminate.
Qed.

Lemma is_ws2_ascii (a b : ascii) :
  (nat_of_ascii a < 128)%nat -> is_ws2 a b = false.
Proof.
  intros H. destruct (is_ws2 a b) eqn:E; [ | reflexivity ].
  apply is_ws2_lead in E. lia.
Qed.

Lemma is_ws3_ascii (a b c : ascii) :
  (nat_of_ascii a < 128)%nat -> is_ws3 a b c = false.
Proof.
  intros H. destruct (is_ws3 a b c) eqn:E; [ | reflexivity ].
  apply is_ws3_lead in E. lia.
Qed.

(** What follows a string does not change the white space skipped at its
    start, once that is followed by an ASCII character. *)
Lemma skip_ws_suffix (r : string) : forall (n : nat) (s : string),
  (String.length s <= n)%nat ->
  forall (a : ascii) (s' : string),
    skip_ws s = String a s' ->
    (nat_of_ascii a < 128)%nat ->
    skip_ws (String.append s r) = String a (String.append s' r).
Proof.
  induction n as [ | n IH ]; intros s Hn a s' H Ha;
    destruct s as [ | x r1 ]; simpl in Hn; try discriminate; try lia.
  simpl in H |- *.
  destruct (is_ws x); [ apply IH; [ lia | assumption | assumption ] | ].
  destruct r1 as [ | b r2 ]; simpl in H, Hn |- *.
  - injection H as <- <-. change (String.append "" r) with r.
    destruct r as [ | b r2 ]; [ reflexivity | ].
    rewrite (is_ws2_ascii x b Ha).
    destruct r2 as [ | c r3 ]; [ reflexivity | ].
    now rewrite (is_ws3_ascii x b c Ha).
  - destruct (is_ws2 x b); [ apply IH; [ lia | assumption | assumption ] | ].
    destruct r2 as [ | c r3 ]; simpl in H, Hn |- *.
    + injection H as <- <-. change (String.append "" r) with r.
      destruct r as [ | c r3 ]; [ reflexivity | ].
      now rewrite (is_ws3_ascii x b c Ha).
    + destruct (is_ws3 x b c); [ apply IH; [ lia | assumption | assumption ] | ].
      injection H as <- <-. reflexivity.
Qed.

(** A string that reads as a number has, after its white space, an
    ASCII character: a sign or a digit. *)
Lemma parseInt_string_starts (s : string) (n : Z) :
  parseInt_string s = VNum n ->
  exists (a : ascii) (s' : string),
    skip_ws s = String a s' /\ (nat_of_ascii a < 128)%nat.
Proof.
  unfold parseInt_string. intros H.
  destruct (skip_ws s) as [ | a s' ]; [ discriminate | ].
  exists a, s'. split; [ reflexivity | ].
  destruct a as [[] [] [] [] [] [] [] []];
    try (simpl in H; discriminate); apply Nat.ltb_lt; reflexivity.
Qed.

Lemma strip_sign_suffix (s r : string) :
  s <> "" ->
  strip_sign (String.append s r)
  = (fst (strip_sign s), String.append (snd (strip_sign s)) r).
Proof.
  destruct s as [ | a s' ]; [ congruence | ]. intros _.
  destruct a as [[] [] [] [] [] [] [] []]; reflexivity.
Qed.

Lemma strip_radix_suffix (s : string) (c : ascii) (t : string) :
  s <> "" -> c <> "x"%char -> c <> "X"%char ->
  strip_radix (String.append s (String c t))
  = (fst (strip_radix s), String.append (snd (strip_radix s)) (String c t)).
Proof.
  destruct s as [ | a [ | b s' ] ]; [ congruence | | ]; intros _ Hx HX.
  - destruct (ascii_dec a "0") as [-> | Ha].
    + simpl. destruct c as [[] [] [] [] [] [] [] []]; try reflexivity; congruence.
    + destruct a as [[] [] [] [] [] [] [] []]; try reflexivity; congruence.
  - destruct (ascii_dec a "0") as [-> | Ha].
    + simpl. destruct b as [[] [] [] [] [] [] [] []]; reflexivity.
    + destruct a as [[] [] [] [] [] [] [] []]; try reflexivity; congruence.
Qed.

Lemma strip_radix_cases (s : string) :
  fst (strip_radix s) = 10 \/ fst (strip_radix s) = 16.
Proof.
  destruct s as [ | a [ | b s' ] ]; simpl; auto.
  - destruct a as [[] [] [] [] [] [] [] []]; simpl; auto.
  - destruct a as [[] [] [] [] [] [] [] []]; simpl; auto;
      destruct b as [[] [] [] [] [] [] [] []]; simpl; auto.
Qed.

(** Once a string reads as a number, whatever follows a character that
    is neither a digit (of either radix) nor the [x] of a radix prefix
    is not looked at. *)
Lemma parseInt_string_suffix (s : string) (c : ascii) (t : string) (n : Z) :
  parseInt_string s = VNum n ->
  digit_of 16 c = None -> c <> "x"%char -> c <> "X"%char ->
  parseInt_string (String.append s (String c t)) = VNum n.
Proof.
  intros H Hc Hx HX.
  destruct (parseInt_string_starts s n H) as (a & s' & Hs & Ha).
  unfold parseInt_string in *.
  rewrite (skip_ws_suffix _ _ s (Nat.le_refl _) a s' Hs Ha).
  change (String a (String.append s' (String c t)))
    with (String.append (String a s') (String c t)).
  rewrite Hs in H.
  rewrite strip_sign_suffix by discriminate.
  destruct (strip_sign (String a s')) as [sign s1]. cbn [fst snd].
  assert (s1 <> "") as Hs1.
  { intros E. rewrite E in H. simpl in H. discriminate. }
  rewrite strip_radix_suffix by assumption.
  destruct (strip_radix s1) as [radix s2] eqn:Hr. cbn [fst snd].
  assert (digit_of radix c = None) as Hd.
  { pose proof (strip_radix_cases s1) as Hcases. rewrite Hr in Hcases.
    destruct Hcases as [E | E]; simpl in E; subst radix;
      [ now apply digit_of_10_of_16 | exact Hc ]. }
  now rewrite digits_suffix.
Qed.

Lemma prop_with_id (id : value) (req : request) :
  prop (req_params (with_id id req)) "id" = id.
Proof. unfold with_id, with_params, prop. cbn. now rewrite lookup_singleton_eq. Qed.

Lemma get_user_by_id_parseInt (req : request) (e : env) (st : store) (a b : value) :
  parseInt a = parseInt b ->
  get_user_by_id (with_id a req) e st = get_user_by_id (with_id b req) e st.
Proof.
  intros H. unfold get_user_by_id. rewrite !prop_with_id.
  unfold not_owner. rewrite (findById_parseInt a b st H), H. reflexivity.
Qed.

Lemma delete_user_by_id_parseInt (req : request) (e : env) (st : store) (a b : value) :
  parseInt a = parseInt b ->
  delete_user_by_id (with_id a req) e st = delete_user_by_id (with_id b req) e st.
Proof.
  intros H. unfold delete_user_by_id. rewrite !prop_with_id.
  unfold User.deleteById, User.has_id. rewrite H. reflexivity.
Qed.

Lemma put_user_by_id_parseInt P (req : request) (e : env) (st : store) (a b : value) :
  parseInt a = parseInt b ->
  put_user_by_id P (with_id a req) e st = put_user_by_id P (with_id b req) e st.
Proof.
  intros H. unfold put_user_by_id. rewrite !prop_with_id.
  unfold not_owner, update_username, update_email, User.updateById, User.has_id.
  rewrite H. reflexivity.
Qed.

(** X4: the three [/:id] routes read the path parameter with
    [parseInt], so characters after the number do not count: when [s]
    reads as a number, [s] followed by a character that is no digit and
    anything after it names the same user, for reading, updating and
    deleting alike. *)
Theorem id_suffix_ignored (P : platform) (req : request) (e : env) (st : store)
    (s : string) (c : ascii) (t : string) (n : Z) :
  parseInt_string s = VNum n ->
  digit_of 16 c = None -> c <> "x"%char -> c <> "X"%char ->
  let id := VStr s in
  let id' := VStr (String.append s (String c t)) in
  get_user_by_id (with_id id' req) e st = get_user_by_id (with_id id req) e st /\
  put_user_by_id P (with_id id' req) e st = put_user_by_id P (with_id id req) e st /\
  delete_user_by_id (with_id id' req) e st
  = delete_user_by_id (with_id id req) e st.
Proof.
  intros Hs Hc Hx HX id id'.
  assert (parseInt id' = parseInt id) as H.
  { subst id id'. simpl. rewrite Hs. now apply parseInt_string_suffix. }
  repeat split.
  - now apply get_user_by_id_parseInt.
  - now apply put_user_by_id_parseInt.
  - now apply delete_user_by_id_parseInt.
Qed.

Lemma id_suffix_ignored_witness :
  get_user_by_id (with_id (VStr "2gbc") (as_user alice_claims "" ∅)) an_env
    scenario_store
  = get_user_by_id (with_id (VStr "2") (as_user alice_claims "" ∅)) an_env
      scenario_store.
Proof.
  apply (id_suffix_ignored stub_platform (as_user alice_claims "" ∅) an_env
           scenario_store "2" "g"%char "bc" 2); try reflexivity; discriminate.
Defined.

(** ** Registration and login *)

Lemma post_register_fresh P (req : request) (e : env) (st : store) (p : string) :
  let username := prop (req_body req) "username" in
  let email := prop (req_body req) "email" in
  let record := registered_record P e username email p (nextUserId st) in
  User.findByEmail email st = None ->
  User.findByUsername username st = None ->
  prop (req_body req) "password" = VStr p ->
  post_register P req e st
  = (match sign P e (withoutPassword record) with
     | Some token =>
         send 201 (auth_response "User registered successfully" token
                     (withoutPassword record))
     | None => registration_failed
     end,
     {| users := users st ++ [record]; nextUserId := nextUserId st + 1 |}).
Proof.
  intros username email record Hemail Hname Hp.
  unfold post_register. fold username email. rewrite Hemail, Hname, Hp.
  cbn [hash]. unfold User.create.
  match goal with |- context [<["createdAt" := ?t]> ?m] =>
    change (<["createdAt" := t]> m) with record end.
  destruct (sign P e (withoutPassword record)); reflexivity.
Qed.



(** X6: when the signer throws, the registration is answered 500 but
    the record has already been stored; registering the same email again
    is then refused as a duplicate. *)
Theorem register_sign_failure_keeps_user (P : platform) (req req2 : request)
    (e e2 : env) (st : store) (a p : string) :
  let username := prop (req_body req) "username" in
  let record := registered_record P e username (VStr a) p (nextUserId st) in
  prop (req_body req) "email" = VStr a ->
  prop (req_body req2) "email" = VStr a ->
  User.findByEmail (VStr a) st = None ->
  User.findByUsername username st = None ->
  prop (req_body req) "password" = VStr p ->
  sign P e (withoutPassword record) = None ->
  let st' := {| users := users st ++ [record];
                nextUserId := nextUserId st + 1 |} in
  post_register P req e st = (registration_failed, st') /\
  post_register P req2 e2 st' = (email_exists, st').
Proof.
  intros username record Ha Ha2 Hemail Hname Hp Hsign st'.
  assert (post_register P req e st = (registration_failed, st')) as H1.
  { rewrite (post_register_fresh P req e st p); rewrite ?Ha; auto.
    fold username record. now rewrite Hsign. }
  split; [ exact H1 | ].
  unfold post_register. rewrite Ha2. unfold User.findByEmail. subst st'.
  cbn [users]. rewrite find_app_skip
    by (intros u Hu; exact (find_none_by _ _ _ Hemail u Hu)).
  simpl.
  change (prop record "email") with (VStr a).
  now rewrite strict_eq_str_refl.
Qed.

(** X7: with a [bcrypt.compare] that accepts what [bcrypt.hash]
    produced, a user who has just registered logs in with the same email
    and password and is answered 200 with the view the registration
    stored; the login leaves the store as it is. *)
Theorem register_then_login (P : platform) (req req2 : request) (e e2 : env)
    (st : store) (a p token : string) :
  let username := prop (req_body req) "username" in
  let record := registered_record P e username (VStr a) p (nextUserId st) in
  let st' := snd (post_register P req e st) in
  bcrypt_sound P ->
  prop (req_body req) "email" = VStr a ->
  prop (req_body req) "password" = VStr p ->
  User.findByEmail (VStr a) st = None ->
  User.findByUsername username st = None ->
  prop (req_body req2) "email" = VStr a ->
  prop (req_body req2) "password" = VStr p ->
  sign P e2 record = Some token ->
  post_login P req2 e2 st'
  = (send 200 (auth_response "Login successful" token (withoutPassword record)),
     st').
Proof.
  intros username record st' Hsound Ha Hp Hemail Hname Ha2 Hp2 Hsign.
  subst st'. rewrite (post_register_fresh P req e st p); rewrite ?Ha; auto.
  fold username record. cbn [snd].
  unfold post_login. rewrite Ha2, Hp2. unfold User.findByEmail. cbn [users].
  rewrite find_app_skip
    by (intros u Hu; exact (find_none_by _ _ _ Hemail u Hu)).
  simpl.
  change (prop record "email") with (VStr a). rewrite strict_eq_str_refl.
  change (prop record "password") with (VStr (bcrypt_hash P (env_salt e) p)).
  cbn [compare]. rewrite Hsound, Hsign. reflexivity.
Qed.

Lemma stub_platform_sound : bcrypt_sound stub_platform.
Proof. intros salt p. simpl. apply String.eqb_refl. Qed.

Lemma register_then_login_witness :
  status (fst (post_login stub_platform (as_user ∅ "" alice_body) an_env
                 scenario_store)) = VNum 200.
Proof.
  unfold scenario_store.
  rewrite (register_then_login stub_platform (as_user ∅ "" alice_body)
             (as_user ∅ "" alice_body) an_env an_env (initial_store "boot")
             "alice@x.com" "Secret123" "token");
    try reflexivity.
  apply stub_platform_sound.
Defined.

Lemma register_sign_failure_keeps_user_witness :
  fst (post_register unsigned_platform (as_user ∅ "" alice_body) an_env
         (initial_store "boot")) = registration_failed /\
  length (users (snd (post_register unsigned_platform (as_user ∅ "" alice_body)
                        an_env (initial_store "boot")))) = 2%nat.
Proof.
  destruct (register_sign_failure_keeps_user unsigned_platform
              (as_user ∅ "" alice_body) (as_user ∅ "" alice_again) an_env an_env
              (initial_store "boot") "alice@x.com" "Secret123")
    as [H _]; try reflexivity.
  rewrite H. split; reflexivity.
Defined.

(** ** PUT /users/:id, carried out *)





(** ** Roles, ids and statistics in the stores the server can reach *)

Lemma keeps_through (I : store -> Prop) (m : middleware) (h : handler) :
  keeps I h -> keeps I (through m h).
Proof.
  intros Hh req e st Hst. unfold through.
  destruct (m req) as [r | req']; [ exact Hst | now apply Hh ].
Qed.

Lemma keeps_unchanged (I : store -> Prop) (h : handler) :
  (forall req e st, snd (h req e st) = st) -> keeps I h.
Proof. intros Hh req e st Hst. now rewrite Hh. Qed.

Lemma keeps_dispatch (I : store -> Prop) (routes : list route) m path req e st r st' :
  Forall (fun rt => keeps I (rt_handler rt)) routes ->
  I st ->
  dispatch routes m path req e st = Some (r, st') ->
  I st'.
Proof.
  intros Hall Hst. induction Hall as [ | rt rest Hrt _ IH ]; simpl; [ discriminate | ].
  destruct (method_eqb (rt_method rt) m); [ | exact IH ].
  destruct (match_path (rt_path rt) path ∅) as [ps | ]; [ | exact IH ].
  intros [= H]. specialize (Hrt (with_params ps req) e st Hst).
  now rewrite H in Hrt.
Qed.

Lemma post_login_unchanged P req e st : snd (post_login P req e st) = st.
Proof.
  unfold post_login.
  destruct (User.findByEmail _ st) as [user | ]; [ | reflexivity ].
  destruct (compare P _ _) as [ [ | ] | ]; try reflexivity.
  destruct (sign P e user); reflexivity.
Qed.

Lemma get_me_unchanged req e st : snd (get_me req e st) = st.
Proof. unfold get_me. destruct (User.findById _ st); reflexivity. Qed.

Lemma get_users_unchanged req e st : snd (get_users req e st) = st.
Proof. unfold get_users. destruct (not_admin req); reflexivity. Qed.

Lemma get_user_by_id_unchanged req e st : snd (get_user_by_id req e st) = st.
Proof.
  unfold get_user_by_id. destruct (_ && _); [ reflexivity | ].
  destruct (User.findById _ st); reflexivity.
Qed.

Lemma get_stats_unchanged req e st : snd (get_stats req e st) = st.
Proof. unfold get_stats. destruct (not_admin req); reflexivity. Qed.

Lemma post_register_roles P : keeps roles_ok (post_register P).
Proof.
  intros req e st Hst. unfold post_register.
  destruct (User.findByEmail _ st); [ exact Hst | ].
  destruct (User.findByUsername _ st); [ exact Hst | ].
  destruct (hash P e _) as [hashed | ]; [ | exact Hst ].
  unfold User.create.
  match goal with |- context [sign P e ?u] => destruct (sign P e u) end;
    cbn [snd]; intros u Hu; cbn [users] in Hu;
    (apply in_app_or in Hu as [Hu | [<- | []]]; [ now apply Hst | ]);
    left; reflexivity.
Qed.

Lemma delete_user_by_id_roles : keeps roles_ok delete_user_by_id.
Proof.
  intros req e st Hst. unfold delete_user_by_id.
  destruct (not_admin req); [ exact Hst | ].
  destruct (strict_eq _ _); [ exact Hst | ].
  unfold User.deleteById.
  destruct (findIndex _ (users st)) as [i0 | ]; [ | exact Hst ].
  cbn [snd]. intros u Hu. cbn [users] in Hu. apply Hst. eapply In_delete; eauto.
Qed.

Lemma put_user_by_id_roles P : keeps roles_ok (put_user_by_id P).
Proof.
  intros req e st Hst. unfold put_user_by_id.
  destruct (_ && _); [ exact Hst | ].
  destruct (update_username _ _ st ∅) as [r | d1] eqn:H1; [ exact Hst | ].
  destruct (update_email _ _ st d1) as [r | d2] eqn:H2; [ exact Hst | ].
  destruct (update_password P e _ d2) as [d3 | ] eqn:H3; [ | exact Hst ].
  pose proof (updateById_frame (prop (req_params req) "id") d3 (env_now e) st)
    as (_ & Hlen & Hf).
  assert (forall k, k <> "username" -> k <> "email" -> k <> "password" ->
                    d3 !! k = None) as Hkeys.
  { intros k Hk1 Hk2 Hk3.
    rewrite (update_password_keys _ _ _ _ _ k H3),
            (update_email_keys _ _ _ _ _ k H2),
            (update_username_keys _ _ _ _ _ k H1) by assumption.
    apply lookup_empty. }
  assert (roles_ok (snd (User.updateById (prop (req_params req) "id") d3
                           (env_now e) st))) as Hres.
  { intros u' Hu'.
    apply list_elem_of_In, list_elem_of_lookup_1 in Hu' as [i Hi].
    assert (i < length (users st))%nat as Hlt
      by (rewrite <- Hlen; eapply lookup_lt_Some; eauto).
    destruct (lookup_lt_is_Some_2 _ _ Hlt) as [u Hu].
    destruct (Hf i u Hu) as (u'' & Hu'' & Hk).
    assert (u'' = u') as -> by congruence.
    pose proof (Hst u (lookup_In _ _ _ Hu)) as Hrole.
    unfold role_ok, prop in *.
    rewrite (Hk "role"), (Hk "id") by (try discriminate; apply Hkeys; discriminate).
    exact Hrole. }
  destruct (User.updateById _ d3 _ st) as [[u | ] st']; exact Hres.
Qed.

Lemma auth_router_roles P :
  Forall (fun rt => keeps roles_ok (rt_handler rt)) (auth_router P).
Proof.
  unfold auth_router. repeat apply List.Forall_cons; try apply List.Forall_nil;
    simpl; apply keeps_through.
  - apply post_register_roles.
  - apply keeps_unchanged, post_login_unchanged.
  - apply keeps_unchanged, get_me_unchanged.
Qed.

Lemma users_router_roles P :
  Forall (fun rt => keeps roles_ok (rt_handler rt)) (users_router P).
Proof.
  unfold users_router. repeat apply List.Forall_cons; try apply List.Forall_nil;
    simpl; repeat apply keeps_through.
  - apply keeps_unchanged, get_users_unchanged.
  - apply keeps_unchanged, get_user_by_id_unchanged.
  - apply put_user_by_id_roles.
  - apply delete_user_by_id_roles.
  - apply keeps_unchanged, get_stats_unchanged.
Qed.

(** ** What every reachable store keeps *)

Lemma unique_by_pointwise k (us us' : list obj) :
  length us' = length us ->
  (forall (i : nat) (u u' : obj),
     us !! i = Some u -> us' !! i = Some u' -> prop u' k = prop u k) ->
  unique_by k us -> unique_by k us'.
Proof.
  intros Hlen Hsame Hu i j u' v' Hi Hj Heq.
  assert (i < length us)%nat as Hi' by (rewrite <- Hlen; eapply lookup_lt_Some; eauto).
  assert (j < length us)%nat as Hj' by (rewrite <- Hlen; eapply lookup_lt_Some; eauto).
  destruct (lookup_lt_is_Some_2 _ _ Hi') as [u Hu0].
  destruct (lookup_lt_is_Some_2 _ _ Hj') as [v Hv0].
  apply (Hu i j u v Hu0 Hv0).
  now rewrite <- (Hsame i u u' Hu0 Hi), <- (Hsame j v v' Hv0 Hj).
Qed.

Lemma create_sound (username email : value) (h now : string) (st : store) :
  store_sound st ->
  store_sound
    (snd (User.create (<["username" := username]>
                      (<["email" := email]>
                      (<["password" := VStr h]> ∅))) now st)).
Proof.
  intros [Hids Hid Hroles Hpw]. unfold User.create. split; cbn [snd users nextUserId].
  - intros u Hu. cbn [users nextUserId] in *.
    apply in_app_or in Hu as [Hu | [<- | []]].
    + destruct (Hids u Hu) as (n & Hn & Hlt). exists n. split; [ exact Hn | lia ].
    + exists (nextUserId st). split; [ reflexivity | lia ].
  - apply unique_by_snoc; [ exact Hid | ].
    intros u Hu. destruct (Hids u Hu) as (n & -> & Hlt).
    change (strict_eq (VNum n) (VNum (nextUserId st)) = false).
    simpl. lia.
  - intros u Hu. cbn [users] in Hu.
    apply in_app_or in Hu as [Hu | [<- | []]]; [ now apply Hroles | ].
    left. reflexivity.
  - intros u Hu. cbn [users] in Hu.
    apply in_app_or in Hu as [Hu | [<- | []]]; [ now apply Hpw | ].
    exists h. reflexivity.
Qed.

Lemma updateById_sound (id : value) (d : obj) (now : string) (st : store) :
  patch_ok d ->
  store_sound st ->
  store_sound (snd (User.updateById id d now st)).
Proof.
  intros [Hkeys Hpass] Hst. unfold User.updateById.
  destruct (findIndex (User.has_id id) (users st)) as [i0 | ]; [ | exact Hst ].
  destruct (users st !! i0) as [old | ] eqn:Hold; [ | exact Hst ].
  cbn [snd].
  set (new := <["updatedAt" := VStr now]> (d ∪ old)).
  assert (forall k, k <> "updatedAt" -> d !! k = None -> prop new k = prop old k)
    as Hkeep.
  { intros k Hk Hn. unfold prop, new.
    rewrite lookup_insert_ne by congruence. now rewrite lookup_union_r. }
  assert (i0 < length (users st))%nat as Hlt by (eapply lookup_lt_Some; eauto).
  assert (forall (i : nat) (u u' : obj) k,
            k <> "updatedAt" -> d !! k = None ->
            users st !! i = Some u -> <[i0 := new]> (users st) !! i = Some u' ->
            prop u' k = prop u k) as Hsame.
  { intros i u u' k Hk Hn Hu Hu'. destruct (decide (i = i0)) as [-> | Hne].
    - rewrite list_lookup_insert_eq in Hu' by assumption.
      injection Hu' as <-. rewrite Hkeep by assumption. congruence.
    - rewrite list_lookup_insert_ne in Hu' by congruence. congruence. }
  assert (forall u', In u' (<[i0 := new]> (users st)) ->
            exists (i : nat) (u : obj),
              users st !! i = Some u /\ <[i0 := new]> (users st) !! i = Some u')
    as Hfrom.
  { intros u' Hu'.
    apply list_elem_of_In, list_elem_of_lookup_1 in Hu' as [i Hi].
    assert (i < length (users st))%nat as Hi'
      by (rewrite <- (length_insert (users st) i0 new); eapply lookup_lt_Some; eauto).
    destruct (lookup_lt_is_Some_2 _ _ Hi') as [u Hu]. eauto. }
  destruct Hst as [Hids Hid Hroles Hpw]. split; cbn [users nextUserId].
  - intros u' Hu'. destruct (Hfrom u' Hu') as (i & u & Hu & Hi).
    rewrite (Hsame i u u' "id") by (auto; try discriminate; apply Hkeys; discriminate).
    apply Hids. eapply lookup_In; eauto.
  - apply (unique_by_pointwise "id" (users st)); [ apply length_insert | | exact Hid ].
    intros i u u' Hu Hu'.
    apply (Hsame i u u' "id"); auto; try discriminate; apply Hkeys; discriminate.
  - intros u' Hu'. destruct (Hfrom u' Hu') as (i & u & Hu & Hi).
    unfold role_ok.
    rewrite (Hsame i u u' "id"), (Hsame i u u' "role")
      by (auto; try discriminate; apply Hkeys; discriminate).
    apply Hroles. eapply lookup_In; eauto.
  - intros u' Hu'. destruct (Hfrom u' Hu') as (i & u & Hu & Hi).
    destruct Hpass as [Hnone | (h & Hh)].
    + rewrite (Hsame i u u' "password") by (auto; discriminate).
      apply Hpw. eapply lookup_In; eauto.
    + destruct (decide (i = i0)) as [-> | Hne].
      * rewrite list_lookup_insert_eq in Hi by assumption. injection Hi as <-.
        exists h. unfold prop, new. rewrite lookup_insert_ne by discriminate.
        now rewrite (lookup_union_Some_l _ _ _ _ Hh).
      * rewrite list_lookup_insert_ne in Hi by congruence.
        apply Hpw. eapply lookup_In; eauto.
Qed.

Lemma deleteById_sound (id : value) (st : store) :
  store_sound st -> store_sound (snd (User.deleteById id st)).
Proof.
  intros Hst. unfold User.deleteById.
  destruct (findIndex _ (users st)) as [i0 | ]; [ | exact Hst ].
  destruct Hst as [Hids Hid Hroles Hpw]. split; cbn [snd users nextUserId].
  - intros u Hu. apply Hids. eapply In_delete; eauto.
  - now apply unique_by_delete.
  - intros u Hu. apply Hroles. eapply In_delete; eauto.
  - intros u Hu. apply Hpw. eapply In_delete; eauto.
Qed.

(** The patch an update builds is a username, an email and a hash. *)
Lemma steps_patch_ok P e (username email password id id' : value)
    (st1 st2 : store) (d1 d2 d3 : obj) :
  update_username username id st1 ∅ = inr d1 ->
  update_email email id' st2 d1 = inr d2 ->
  update_password P e password d2 = Some d3 ->
  patch_ok d3.
Proof.
  intros H1 H2 H3. split.
  - intros k K1 K2 K3.
    rewrite (update_password_keys _ _ _ _ _ k H3),
            (update_email_keys _ _ _ _ _ k H2),
            (update_username_keys _ _ _ _ _ k H1) by assumption.
    apply lookup_empty.
  - assert (d2 !! "password" = None) as Hd2.
    { rewrite (update_email_keys _ _ _ _ _ "password" H2),
              (update_username_keys _ _ _ _ _ "password" H1) by discriminate.
      apply lookup_empty. }
    unfold update_password in H3.
    destruct (truthy password); [ | left; congruence ].
    destruct password; try discriminate. cbn [hash] in H3.
    injection H3 as <-. right. eexists. apply lookup_insert_eq.
Qed.

Lemma register_commit_sound P : keeps store_sound (register_commit P).
Proof.
  intros req e st Hst. unfold register_commit.
  destruct (prop (req_body req) "password") as [ | | | | | p | | ];
    try exact Hst.
  cbn [hash].
  match goal with |- context [User.create ?d ?n st] =>
    pose proof (create_sound (prop (req_body req) "username")
                  (prop (req_body req) "email")
                  (bcrypt_hash P (env_salt e) p) n st Hst) as Hnew;
    destruct (User.create d n st) as [newUser st'] end.
  cbn [snd] in Hnew. destruct (sign P e newUser); exact Hnew.
Qed.

(** The atomic handler is its two halves run on one store. *)
Lemma post_register_phases P req e st :
  post_register P req e st
  = match register_check req st with
    | Some r => (r, st)
    | None => register_commit P req e st
    end.
Proof.
  unfold post_register, register_check, register_commit.
  destruct (User.findByEmail _ st); [ reflexivity | ].
  destruct (User.findByUsername _ st); reflexivity.
Qed.

Lemma post_register_sound P : keeps store_sound (post_register P).
Proof.
  intros req e st Hst. rewrite post_register_phases.
  destruct (register_check req st); [ exact Hst | ].
  now apply register_commit_sound.
Qed.

Lemma put_user_by_id_sound P : keeps store_sound (put_user_by_id P).
Proof.
  intros req e st Hst. unfold put_user_by_id.
  destruct (_ && _); [ exact Hst | ].
  destruct (update_username _ _ st ∅) as [r | d1] eqn:H1; [ exact Hst | ].
  destruct (update_email _ _ st d1) as [r | d2] eqn:H2; [ exact Hst | ].
  destruct (update_password P e _ d2) as [d3 | ] eqn:H3; [ | exact Hst ].
  pose proof (updateById_sound (prop (req_params req) "id") d3 (env_now e) st
                (steps_patch_ok _ _ _ _ _ _ _ _ _ _ _ _ H1 H2 H3) Hst) as Hres.
  destruct (User.updateById _ d3 _ st) as [[u | ] st']; exact Hres.
Qed.

Lemma delete_user_by_id_sound : keeps store_sound delete_user_by_id.
Proof.
  intros req e st Hst. unfold delete_user_by_id.
  destruct (not_admin req); [ exact Hst | ].
  destruct (strict_eq _ _); [ exact Hst | ].
  pose proof (deleteById_sound (prop (req_params req) "id") st Hst) as Hres.
  destruct (User.deleteById _ st) as [[ | ] st']; exact Hres.
Qed.

Lemma auth_router_sound P :
  Forall (fun rt => keeps store_sound (rt_handler rt)) (auth_router P).
Proof.
  unfold auth_router. repeat apply List.Forall_cons; try apply List.Forall_nil;
    simpl; apply keeps_through.
  - apply post_register_sound.
  - apply keeps_unchanged, post_login_unchanged.
  - apply keeps_unchanged, get_me_unchanged.
Qed.

Lemma users_router_sound P :
  Forall (fun rt => keeps store_sound (rt_handler rt)) (users_router P).
Proof.
  unfold users_router. repeat apply List.Forall_cons; try apply List.Forall_nil;
    simpl; repeat apply keeps_through.
  - apply keeps_unchanged, get_users_unchanged.
  - apply keeps_unchanged, get_user_by_id_unchanged.
  - apply put_user_by_id_sound.
  - apply delete_user_by_id_sound.
  - apply keeps_unchanged, get_stats_unchanged.
Qed.

Lemma initial_store_sound boot : store_sound (initial_store boot).
Proof.
  split.
  - intros u [<- | []]. exists 1. split; [ reflexivity | simpl; lia ].
  - intros i j u v Hi Hj _. apply lookup_lt_Some in Hi, Hj. simpl in *. lia.
  - intros u [<- | []]. right. split; reflexivity.
  - intros u [<- | []]. eexists. reflexivity.
Qed.

(** Ids, roles and stored passwords are written by single store
    operations, so they hold however the requests overlap. *)
Lemma reachable_sound P boot st : reachable P boot st -> store_sound st.
Proof.
  induction 1 as [ | st m path req e r st' _ IH Hd
                   | st m path req e r st' _ IH Hd
                   | st0 st req e _ _ _ _ IH
                   | st1 st2 st req e d1 d2 d3 id _ _ H1 _ _ H2 H3 _ IH ].
  - apply initial_store_sound.
  - eapply keeps_dispatch; eauto using auth_router_sound.
  - eapply keeps_dispatch; eauto using users_router_sound.
  - now apply register_commit_sound.
  - apply updateById_sound; [ | exact IH ].
    eapply steps_patch_ok; eauto.
Qed.

(** One request at a time is one way of getting there. *)
Lemma served_in_turn_reachable P boot st :
  served_in_turn P boot st -> reachable P boot st.
Proof.
  induction 1; [ apply reach_boot | eapply reach_auth | eapply reach_users ];
    eauto.
Qed.

(** The scenario's store is one of them. *)
Lemma scenario_reachable : reachable stub_platform "boot" scenario_store.
Proof.
  apply (reach_auth stub_platform "boot" (initial_store "boot") POST ["register"]
           (as_user ∅ "" alice_body) an_env
           (fst (post_register stub_platform (as_user ∅ "" alice_body) an_env
                   (initial_store "boot")))).
  - apply reach_boot.
  - reflexivity.
Qed.

(** ** POST /auth/login: the two failures *)


Example login_number_password :
  status (fst (post_login stub_platform (as_user ∅ "" alice_number_login)
                 an_env scenario_store)) = VNum 500 /\
  status (fst (post_login stub_platform (as_user ∅ "" nobody_login)
                 an_env scenario_store)) = VNum 401.
Proof. split; reflexivity. Qed.




Lemma reachable_roles P boot st : reachable P boot st -> roles_ok st.
Proof. intros H. apply (sound_roles _ (reachable_sound _ _ _ H)). Qed.

Lemma unique_by_tail k (x : obj) (r : list obj) :
  unique_by k (x :: r) -> unique_by k r.
Proof.
  intros H i j u v Hi Hj Heq.
  assert (S i = S j) by (apply (H (S i) (S j) u v); assumption). lia.
Qed.

Lemma at_most_one (f : obj -> bool) (k : string) (n : Z) (l : list obj) :
  unique_by k l ->
  (forall u, In u l -> f u = true -> prop u k = VNum n) ->
  (length (List.filter f l) <= 1)%nat.
Proof.
  induction l as [ | x r IH ]; intros Hu Hf; simpl; [ lia | ].
  destruct (f x) eqn:Hx.
  - rewrite filter_none; [ simpl; lia | ].
    intros y Hy. destruct (f y) eqn:Hfy; [ | reflexivity ].
    apply list_elem_of_In, list_elem_of_lookup_1 in Hy as [j Hj].
    assert (O = S j) as Habs; [ | discriminate ].
    apply (Hu O (S j) x y); [ reflexivity | exact Hj | ].
    rewrite (Hf x), (Hf y); auto.
    + simpl. apply Z.eqb_refl.
    + right. eapply lookup_In; eauto.
    + now left.
  - apply IH; [ eapply unique_by_tail; eauto | ].
    intros u Hin. apply Hf. now right.
Qed.

Lemma filter_split {A} (f g : A -> bool) (l : list A) :
  (forall x, In x l -> f x = negb (g x)) ->
  (length (List.filter f l) + length (List.filter g l) = length l)%nat.
Proof.
  induction l as [ | x r IH ]; simpl; intros H; [ reflexivity | ].
  rewrite (H x) by auto. specialize (IH (fun y Hy => H y (or_intror Hy))).
  destruct (g x); simpl; lia.
Qed.

(** X9: in every store the server can reach, every record is a plain
    user or the seeded admin (role admin, id 1): no request creates an
    admin or changes a role.  So the statistics add up: [adminUsers] is
    0 or 1, and [adminUsers + regularUsers = totalUsers], the number of
    records. *)
Theorem stats_add_up (P : platform) (boot : string) (st : store) :
  reachable P boot st ->
  roles_ok st /\
  exists a r : Z,
    stat st "totalUsers" = VNum (user_count st) /\
    stat st "adminUsers" = VNum a /\
    stat st "regularUsers" = VNum r /\
    a + r = user_count st /\
    0 <= a <= 1.
Proof.
  intros Hreach.
  pose proof (reachable_roles _ _ _ Hreach) as Hroles.
  pose proof (reachable_sound _ _ _ Hreach) as Hok.
  split; [ exact Hroles | ].
  eexists _, _. repeat split; try reflexivity.
  - unfold user_count. rewrite <- Nat2Z.inj_add. f_equal.
    apply filter_split. intros u Hu. unfold User.has_role.
    destruct (Hroles u Hu) as [-> | [-> _]]; reflexivity.
  - lia.
  - apply (Nat2Z.inj_le _ 1). apply (at_most_one _ "id" 1).
    + apply (sound_id _ Hok).
    + intros u Hu Hadmin. unfold User.has_role in Hadmin.
      destruct (Hroles u Hu) as [Hr | [_ Hid]]; [ | exact Hid ].
      rewrite Hr in Hadmin. discriminate.
Qed.

(** X10: in every store the server can reach, the stored ids are
    numbers, pairwise different and all below [nextUserId]; since a new
    record takes [nextUserId] as its id, the id of a deleted record is
    never handed out again. *)
Theorem ids_never_reused (P : platform) (boot : string) (st : store) :
  reachable P boot st ->
  unique_by "id" (users st) /\
  (forall u, In u (users st) ->
     exists n, prop u "id" = VNum n /\ n < nextUserId st) /\
  (forall userData now u,
     userData !! "id" = None ->
     In u (users st) ->
     prop u "id" <> prop (fst (User.create userData now st)) "id").
Proof.
  intros Hreach. pose proof (reachable_sound _ _ _ Hreach) as [Hids Hid _ _].
  repeat split; [ exact Hid | exact Hids | ].
  intros userData now u Hd Hu.
  destruct (Hids u Hu) as (n & -> & Hlt).
  unfold User.create, prop. cbn [fst].
  rewrite withoutPassword_other by discriminate.
  rewrite !lookup_insert_ne by discriminate.
  rewrite lookup_union_r by assumption. rewrite lookup_singleton_eq.
  simpl. intros [= E]. lia.
Qed.

(** ** What a request can and cannot do *)

Lemma dispatch_from (routes : list route) m path req e st out :
  dispatch routes m path req e st = Some out ->
  exists rt ps,
    In rt routes /\
    method_eqb (rt_method rt) m = true /\
    match_path (rt_path rt) path ∅ = Some ps /\
    out = rt_handler rt (with_params ps req) e st.
Proof.
  induction routes as [ | rt rest IH ]; simpl; [ discriminate | ].
  destruct (method_eqb (rt_method rt) m) eqn:Hm.
  - destruct (match_path (rt_path rt) path ∅) as [ps | ] eqn:Hp.
    + intros [= <-]. exists rt, ps. auto.
    + intros H. destruct (IH H) as (rt' & ps' & Hin & H'). exists rt', ps'. auto.
  - intros H. destruct (IH H) as (rt' & ps' & Hin & H'). exists rt', ps'. auto.
Qed.

Lemma through_unchanged (m : middleware) (h : handler) req e st :
  (forall req', snd (h req' e st) = st) -> snd (through m h req e st) = st.
Proof. intros H. unfold through. destruct (m req); [ reflexivity | apply H ]. Qed.

Lemma through_quiet (m : middleware) (h : handler) req e st :
  (forall req', status (fst (h req' e st)) <> VNum 200 -> snd (h req' e st) = st) ->
  status (fst (through m h req e st)) <> VNum 200 ->
  snd (through m h req e st) = st.
Proof. unfold through. intros H. destruct (m req); [ reflexivity | apply H ]. Qed.

Lemma put_user_by_id_quiet P req e st :
  status (fst (put_user_by_id P req e st)) <> VNum 200 ->
  snd (put_user_by_id P req e st) = st.
Proof.
  unfold put_user_by_id.
  destruct (_ && _); [ reflexivity | ].
  destruct (update_username _ _ st ∅) as [r | d1]; [ reflexivity | ].
  destruct (update_email _ _ st d1) as [r | d2]; [ reflexivity | ].
  destruct (update_password P e _ d2) as [d3 | ]; [ | reflexivity ].
  unfold User.updateById.
  destruct (findIndex _ (users st)) as [i0 | ]; [ | reflexivity ].
  destruct (users st !! i0); [ | reflexivity ].
  simpl. congruence.
Qed.

Lemma delete_user_by_id_quiet req e st :
  status (fst (delete_user_by_id req e st)) <> VNum 200 ->
  snd (delete_user_by_id req e st) = st.
Proof.
  unfold delete_user_by_id.
  destruct (not_admin req); [ reflexivity | ].
  destruct (strict_eq _ _); [ reflexivity | ].
  unfold User.deleteById.
  destruct (findIndex _ (users st)) as [i0 | ]; [ | reflexivity ].
  simpl. congruence.
Qed.

(** X11: reading never writes, and refusals leave no trace.  A GET on
    the users router, and every request to the auth router whose path is
    not [/register] in any letter case, leaves the store as it was; so
    does every request to the users router that is not answered 200. *)
Theorem requests_that_change_nothing (P : platform) (req : request) (e : env)
    (st st' : store) (r : response) (m : method) (path : list string) :
  (dispatch (users_router P) GET path req e st = Some (r, st') -> st' = st) /\
  (dispatch (auth_router P) m path req e st = Some (r, st') ->
   lower <$> path <> ["register"] -> st' = st) /\
  (dispatch (users_router P) m path req e st = Some (r, st') ->
   status r <> VNum 200 -> st' = st).
Proof.
  repeat split.
  - intros H. apply dispatch_from in H as (rt & ps & Hin & Hm & _ & Hout).
    assert (snd (rt_handler rt (with_params ps req) e st) = st) as Hs;
      [ | now rewrite <- Hout in Hs ].
    simpl in Hin.
    destruct Hin as [<- | [<- | [<- | [<- | [<- | []]]]]]; simpl in Hm |- *;
      try discriminate; apply through_unchanged; intros req'.
    + apply get_users_unchanged.
    + apply get_user_by_id_unchanged.
    + apply get_stats_unchanged.
  - intros H Hpath. apply dispatch_from in H as (rt & ps & Hin & Hm & Hp & Hout).
    assert (snd (rt_handler rt (with_params ps req) e st) = st) as Hs;
      [ | now rewrite <- Hout in Hs ].
    simpl in Hin.
    destruct Hin as [<- | [<- | [<- | []]]]; cbn [rt_path rt_handler] in Hp |- *.
    + exfalso. apply Hpath.
      destruct path as [ | x [ | y p ] ]; cbn [match_path] in Hp;
        try discriminate.
      * match type of Hp with context [String.eqb ?a ?b] =>
          destruct (String.eqb_spec a b) as [E | ] end; [ | discriminate ].
        cbn [fmap list_fmap]. rewrite <- E. reflexivity.
      * match type of Hp with context [String.eqb ?a ?b] =>
          destruct (String.eqb a b) end; discriminate.
    + apply through_unchanged. intros req'. apply post_login_unchanged.
    + apply through_unchanged. intros req'. apply get_me_unchanged.
  - intros H Hst. apply dispatch_from in H as (rt & ps & Hin & _ & _ & Hout).
    assert (status (fst (rt_handler rt (with_params ps req) e st)) <> VNum 200 ->
            snd (rt_handler rt (with_params ps req) e st) = st) as Hs.
    { simpl in Hin.
      destruct Hin as [<- | [<- | [<- | [<- | [<- | []]]]]]; simpl; intros Hq.
      - apply through_unchanged. intros req'. apply get_users_unchanged.
      - apply through_unchanged. intros req'. apply get_user_by_id_unchanged.
      - revert Hq. apply through_quiet. intros req'.
        apply through_quiet. intros req''. apply put_user_by_id_quiet.
      - revert Hq. apply through_quiet. intros req'. apply delete_user_by_id_quiet.
      - apply through_unchanged. intros req'. apply get_stats_unchanged. }
    rewrite <- Hout in Hs. simpl in Hs. auto.
Qed.

Lemma requests_that_change_nothing_witness :
  snd (through stub_authenticate delete_user_by_id
         {| req_headers := {["authorization" := VStr "Bearer alice"]};
            req_params := {["id" := VStr "1"]}; req_query := ∅; req_body := ∅;
            req_user := ∅ |}
         an_env scenario_store)
  = scenario_store.
Proof.
  apply (requests_that_change_nothing stub_platform
           {| req_headers := {["authorization" := VStr "Bearer alice"]};
              req_params := ∅; req_query := ∅; req_body := ∅;
              req_user := ∅ |}
           an_env scenario_store
           (snd (through stub_authenticate delete_user_by_id
                   {| req_headers := {["authorization" := VStr "Bearer alice"]};
                      req_params := {["id" := VStr "1"]}; req_query := ∅;
                      req_body := ∅; req_user := ∅ |}
                   an_env scenario_store))
           (forbidden "Admin access required to delete users")
           DELETE ["1"]);
    [ reflexivity | discriminate ].
Defined.

(** X12: no route of the users router, nor [GET /me], runs without the
    guard: when [authenticateToken] turns the request down, its answer is
    the answer, and the store is not touched. *)
Theorem guarded_routes (P : platform) (req : request) (e : env) (st : store)
    (m : method) (path : list string) (r : response) (out : response * store) :
  (forall ps, authenticateToken P (with_params ps req) = inl r) ->
  (dispatch (users_router P) m path req e st = Some out -> out = (r, st)) /\
  (dispatch (auth_router P) GET ["me"] req e st = Some (r, st)).
Proof.
  intros Hguard. split.
  - intros H. apply dispatch_from in H as (rt & ps & Hin & _ & _ & ->).
    simpl in Hin.
    destruct Hin as [<- | [<- | [<- | [<- | [<- | []]]]]]; simpl;
      unfold through; now rewrite Hguard.
  - simpl. unfold through. now rewrite Hguard.
Qed.

Lemma guarded_routes_witness :
  dispatch (auth_router stub_platform) GET ["me"] (as_user admin_claims "" ∅)
    an_env scenario_store
  = Some (send 401 (error_body "Unauthorized" "Authentication required"),
          scenario_store).
Proof.
  apply (proj2 (guarded_routes stub_platform (as_user admin_claims "" ∅) an_env
                  scenario_store DELETE ["2"]
                  (send 401 (error_body "Unauthorized" "Authentication required"))
                  (send 200 VNull, scenario_store)
                  (fun ps => eq_refl))).
Defined.


(** ** The error handler, beyond token errors *)

Lemma strict_eq_str (v : value) (s : string) :
  strict_eq v (VStr s) = true <-> v = VStr s.
Proof.
  split.
  - apply strict_eq_true.
  - intros ->. apply strict_eq_str_refl.
Qed.

Lemma strict_eq_str_false (v : value) (s : string) :
  v <> VStr s -> strict_eq v (VStr s) = false.
Proof.
  intros H. destruct (strict_eq v (VStr s)) eqn:E; [ | reflexivity ].
  now apply strict_eq_str in E.
Qed.



(** X15: an error with none of the three known names and no
    [statusCode] is answered 500 "Internal Server Error": the body holds
    that text and, in development only, the stack; the error's own
    message is not sent. *)
Theorem errorHandler_default (err : obj) (node_env : value) :
  prop err "name" <> VStr "ValidationError" ->
  prop err "name" <> VStr "JsonWebTokenError" ->
  prop err "name" <> VStr "TokenExpiredError" ->
  truthy (prop err "statusCode") = false ->
  exists b : obj,
    errorHandler err node_env = Some {| status := VNum 500; body := VObj b |} /\
    b !! "error" = Some (VStr "Internal Server Error") /\
    forall k, k <> "error" -> k <> "stack" -> b !! k = None.
Proof.
  intros H1 H2 H3 Hsc. unfold errorHandler.
  rewrite (strict_eq_str_false _ _ H1), (strict_eq_str_false _ _ H2),
          (strict_eq_str_false _ _ H3), Hsc. simpl.
  eexists. split; [ reflexivity | ].
  destruct (strict_eq node_env (VStr "development")); split;
    try reflexivity; intros k K1 K2;
    rewrite ?lookup_insert_ne by congruence; apply lookup_empty.
Qed.

Lemma errorHandler_default_witness :
  exists b : obj,
    errorHandler {["message" := VStr "db password is hunter2"]} (VStr "production")
    = Some {| status := VNum 500; body := VObj b |} /\
    b !! "error" = Some (VStr "Internal Server Error") /\
    forall k, k <> "error" -> k <> "stack" -> b !! k = None.
Proof.
  apply (errorHandler_default {["message" := VStr "db password is hunter2"]}
           (VStr "production")); try discriminate; reflexivity.
Defined.

(** X16: whenever the handler answers, the body carries the error's
    stack exactly when [NODE_ENV] is ["development"]. *)
Theorem errorHandler_stack (err : obj) (node_env : value) (r : response) :
  errorHandler err node_env = Some r ->
  exists b : obj,
    body r = VObj b /\
    (node_env = VStr "development" -> b !! "stack" = Some (prop err "stack")) /\
    (node_env <> VStr "development" -> b !! "stack" = None).
Proof.
  unfold errorHandler.
  destruct (strict_eq (prop err "name") (VStr "ValidationError")).
  - destruct (object_values (prop err "errors")) as [vs | ]; [ | discriminate ].
    cbn [mbind option_bind].
    destruct (mapM message_of vs) as [ds | ]; [ | discriminate ].
    cbn [mbind option_bind details].
    destruct (strict_eq node_env (VStr "development")) eqn:E;
      destruct (truthy _),
        (strict_eq (prop err "name") (VStr "TokenExpiredError")),
        (strict_eq (prop err "name") (VStr "JsonWebTokenError"));
      intros [= <-]; eexists; (split; [ reflexivity | ]); split; intros H;
      try reflexivity;
      first [ apply strict_eq_str in E; contradiction
            | rewrite H, strict_eq_str_refl in E; discriminate ].
  - cbn [mbind option_bind details].
    destruct (strict_eq node_env (VStr "development")) eqn:E;
      destruct (truthy _),
        (strict_eq (prop err "name") (VStr "TokenExpiredError")),
        (strict_eq (prop err "name") (VStr "JsonWebTokenError"));
      intros [= <-]; eexists; (split; [ reflexivity | ]); split; intros H;
      try reflexivity;
      first [ apply strict_eq_str in E; contradiction
            | rewrite H, strict_eq_str_refl in E; discriminate ].
Qed.

Lemma errorHandler_stack_witness :
  exists b : obj,
    body {| status := VNum 400;
            body := VObj (<["stack" := VStr "SyntaxError: at parse"]>
                         (<["error" := VStr "Unexpected token"]> ∅)) |}
    = VObj b /\
    (VStr "development" = VStr "development" ->
     b !! "stack" = Some (prop parse_error "stack")) /\
    (VStr "development" <> VStr "development" -> b !! "stack" = None).
Proof.
  apply (errorHandler_stack parse_error (VStr "development")). reflexivity.
Defined.

Lemma mapM_message_of (l : list value) :
  Forall (fun v => v <> VUndef /\ v <> VNull) l ->
  mapM message_of l = Some (message_or_undefined <$> l).
Proof.
  induction 1 as [ | v l [Hu Hn] _ IH ]; [ reflexivity | ].
  cbn [mapM]. rewrite IH.
  destruct v; try reflexivity; congruence.
Qed.

(** X17: a ValidationError is answered 400 "Validation Error" with one
    detail per entry of its [errors] object, the entry's message; but if
    [errors] is missing or null the handler itself throws and answers
    nothing. *)
Theorem errorHandler_validation (err : obj) (node_env : value) :
  prop err "name" = VStr "ValidationError" ->
  truthy (prop err "statusCode") = false ->
  (prop err "errors" = VUndef \/ prop err "errors" = VNull ->
   errorHandler err node_env = None) /\
  (forall m : obj,
     prop err "errors" = VObj m ->
     (forall k v, m !! k = Some v -> v <> VUndef /\ v <> VNull) ->
     exists (b : obj) (ds : list value),
       errorHandler err node_env = Some {| status := VNum 400; body := VObj b |} /\
       b !! "error" = Some (VStr "Validation Error") /\
       b !! "details" = Some (VArr ds) /\
       length ds = size m /\
       forall k v, m !! k = Some v -> message_or_undefined v ∈ ds).
Proof.
  intros Hname Hsc. split.
  - intros [H | H]; unfold errorHandler; rewrite Hname, H; reflexivity.
  - intros m Hm Hvals. unfold errorHandler. rewrite Hname, Hm. simpl.
    rewrite mapM_message_of.
    + simpl. rewrite Hsc.
      exists (<["details" := VArr (message_or_undefined <$> (snd <$> map_to_list m))]>
                (if strict_eq node_env (VStr "development")
                 then <["stack" := prop err "stack"]>
                        (<["error" := VStr "Validation Error"]> ∅)
                 else <["error" := VStr "Validation Error"]> ∅)),
             (message_or_undefined <$> (snd <$> map_to_list m)).
      split; [ destruct (strict_eq node_env (VStr "development")); reflexivity | ].
      split; [ destruct (strict_eq node_env (VStr "development")); reflexivity | ].
      split; [ apply lookup_insert_eq | ].
      split; [ now rewrite !length_fmap, length_map_to_list | ].
      intros k v Hk. apply list_elem_of_fmap_2.
      apply list_elem_of_fmap. exists (k, v). split; [ reflexivity | ].
      now apply elem_of_map_to_list.
    + apply Forall_forall. intros v Hv.
      apply list_elem_of_fmap in Hv as ([k v'] & -> & Hkv).
      apply elem_of_map_to_list in Hkv. eapply Hvals; eauto.
Qed.

Lemma errorHandler_validation_witness :
  exists (b : obj) (ds : list value),
    errorHandler validation_error (VStr "production")
    = Some {| status := VNum 400; body := VObj b |} /\
    b !! "error" = Some (VStr "Validation Error") /\
    b !! "details" = Some (VArr ds) /\
    length ds = 1%nat /\
    VStr "email is invalid" ∈ ds.
Proof.
  destruct (proj2 (errorHandler_validation validation_error (VStr "production")
                     eq_refl eq_refl)
              {["email" := VObj {["message" := VStr "email is invalid"]}]}
              eq_refl)
    as (b & ds & H1 & H2 & H3 & H4 & H5).
  - intros k v Hk. apply lookup_singleton_Some in Hk as [_ <-].
    split; discriminate.
  - exists b, ds. repeat split; try assumption.
    exact (H5 "email" (VObj {["message" := VStr "email is invalid"]}) eq_refl).
Defined.

(** ** Pages and their count *)

Lemma js_slice_length {A} (l : list A) (s e : Z) :
  0 <= s -> 0 <= e ->
  Z.of_nat (length (js_slice l s e))
  = Z.max 0 (Z.min e (Z.of_nat (length l)) - Z.min s (Z.of_nat (length l))).
Proof.
  intros Hs He. unfold js_slice, slice_index.
  destruct (s <? 0) eqn:E1; [ lia | ]. destruct (e <? 0) eqn:E2; [ lia | ].
  rewrite length_take, length_drop. lia.
Qed.

Lemma ceil_div_bounds (a b : Z) :
  0 < b -> b * (ceil_div a b - 1) < a <= b * ceil_div a b.
Proof.
  intros Hb. unfold ceil_div.
  pose proof (Z.mul_div_le (- a) b Hb).
  pose proof (Z.mul_succ_div_gt (- a) b Hb). lia.
Qed.

(** X18: for an admin and a page and page size of at least 1 and
    finite (below 2^1024, where a double turns into Infinity), the answer
    reports the page and the page size the route worked with,
    [totalPages] is the least number of pages that holds every user
    ([(totalPages - 1) * pageSize < total <= totalPages * pageSize]), and
    the page listed is empty exactly when its number is above
    [totalPages]. *)
Theorem total_pages_bound (req : request) (e : env) (st : store) :
  let page := int_or (prop (req_query req) "page") 1 in
  let pageSize := int_or (prop (req_query req) "limit") 10 in
  let r := fst (get_users req e st) in
  let total := user_count st in
  is_admin req ->
  1 <= page < 2 ^ 1024 ->
  1 <= pageSize < 2 ^ 1024 ->
  exists totalPages : Z,
    pagination_field r "totalPages" = VNum totalPages /\
    pagination_field r "page" = VNum page /\
    pagination_field r "limit" = VNum pageSize /\
    (totalPages - 1) * pageSize < total <= totalPages * pageSize /\
    (body_field r "users" = VArr [] <-> totalPages < page).
Proof.
  intros page pageSize r total Ha [Hp _] [Hs _].
  apply not_admin_false in Ha.
  exists (ceil_div total pageSize).
  assert (Z.of_nat (length (User.findAll st)) = total) as Hlen
    by (unfold User.findAll, total, user_count; now rewrite length_map).
  pose proof (ceil_div_bounds total pageSize ltac:(lia)) as Hb.
  assert (body_field r "users"
          = VArr (VObj <$> js_slice (User.findAll st) ((page - 1) * pageSize)
                             (page * pageSize))) as Husers
    by (subst r; unfold get_users; rewrite Ha; reflexivity).
  assert (pagination_field r "totalPages"
          = VNum (ceil_div (Z.of_nat (length (User.findAll st))) pageSize))
    as Htp by (subst r; unfold get_users; rewrite Ha; reflexivity).
  rewrite Hlen in Htp.
  split; [ exact Htp | ].
  split; [ subst r; unfold get_users; rewrite Ha; reflexivity | ].
  split; [ subst r; unfold get_users; rewrite Ha; reflexivity | ].
  split; [ lia | ].
  rewrite Husers. split.
  - intros [= H]. apply fmap_nil_inv in H.
    apply (f_equal (fun l => Z.of_nat (length l))) in H.
    rewrite js_slice_length in H by nia. rewrite Hlen in H. simpl in H. nia.
  - intros H.
    assert (js_slice (User.findAll st) ((page - 1) * pageSize) (page * pageSize)
            = []) as ->; [ | reflexivity ].
    apply length_zero_iff_nil, Nat2Z.inj.
    rewrite js_slice_length by nia. rewrite Hlen. simpl. nia.
Qed.

Lemma total_pages_bound_witness :
  exists totalPages : Z,
    pagination_field (fst (get_users (with_query page_two_query
                                        (as_user admin_claims "" ∅))
                             an_env scenario_store)) "totalPages"
    = VNum totalPages /\
    (totalPages - 1) * 1 < 2 <= totalPages * 1.
Proof.
  destruct (total_pages_bound (with_query page_two_query (as_user admin_claims "" ∅))
              an_env scenario_store) as (tp & H1 & _ & _ & H2 & _);
    [ reflexivity | vm_compute; split; [ discriminate | reflexivity ]
    | vm_compute; split; [ discriminate | reflexivity ] | ].
  exists tp. split; [ exact H1 | exact H2 ].
Defined.

(** ** GET /auth/me *)

(** X19: [GET /me] answers with the record whose id is the token's
    [userId], or 404 "User profile not found" when there is none; when it
    answers 200, [GET /users/:id] with the requester's own id gives the
    very same answer. *)
Theorem me_is_own_profile (req : request) (e : env) (st : store) (id : value)
    (n : Z) :
  prop (req_user req) "userId" = VNum n ->
  parseInt id = VNum n ->
  ((forall u, In u (users st) -> prop u "id" <> VNum n) ->
   get_me req e st
   = (send 404 (error_body "User not found" "User profile not found"), st) /\
   get_user_by_id (with_id id req) e st = (user_not_found, st)) /\
  ((exists u, In u (users st) /\ prop u "id" = VNum n) ->
   exists u, In u (users st) /\ prop u "id" = VNum n /\
     get_me req e st = (send 200 (VObj (withoutPassword u)), st) /\
     get_user_by_id (with_id id req) e st = get_me req e st).
Proof.
  intros Huid Hid.
  assert (get_user_by_id (with_id id req) e st
          = match User.findById (VNum n) st with
            | None => (user_not_found, st)
            | Some user => (send 200 (VObj user), st)
            end) as Hget.
  { unfold get_user_by_id. rewrite prop_with_id.
    assert (not_owner (with_id id req) id = false) as ->.
    { apply not_owner_false. exists n. split; [ exact Huid | exact Hid ]. }
    rewrite andb_false_r.
    rewrite (findById_parseInt id (VNum n)) by (rewrite Hid; reflexivity).
    reflexivity. }
  rewrite Hget. unfold get_me. rewrite Huid. unfold User.findById. split.
  - intros Hnone. rewrite find_all_false; [ split; reflexivity | ].
    intros u Hu. destruct (User.has_id (VNum n) u) eqn:E; [ | reflexivity ].
    apply has_id_num in E. now apply Hnone in E.
  - intros (u & Hin & Hu).
    destruct (List.find (User.has_id (VNum n)) (users st)) as [v | ] eqn:Hf.
    + apply List.find_some in Hf as [Hv1 Hv2]. apply has_id_num in Hv2.
      exists v. auto.
    + apply has_id_num in Hu.
      rewrite (List.find_none _ _ Hf u Hin) in Hu. discriminate.
Qed.

Lemma me_is_own_profile_witness :
  exists u, In u (users scenario_store) /\ prop u "id" = VNum 2 /\
    get_me (as_user alice_claims "" ∅) an_env scenario_store
    = (send 200 (VObj (withoutPassword u)), scenario_store) /\
    get_user_by_id (with_id (VStr "2") (as_user alice_claims "" ∅)) an_env
      scenario_store
    = get_me (as_user alice_claims "" ∅) an_env scenario_store.
Proof.
  assert (exists u, In u (users scenario_store) /\ prop u "id" = VNum 2) as Hex
    by (exists (nth 1 (users scenario_store) ∅);
        split; [ right; left | ]; reflexivity).
  apply (proj2 (me_is_own_profile (as_user alice_claims "" ∅) an_env
                  scenario_store (VStr "2") 2 eq_refl eq_refl)
           Hex).
Defined.

(** ** After a deletion *)

Lemma unique_elsewhere k (l1 l2 : list obj) (u x : obj) :
  unique_by k (l1 ++ u :: l2) ->
  In x (l1 ++ l2) ->
  strict_eq (prop x k) (prop u k) = false.
Proof.
  intros Hu Hx.
  destruct (strict_eq (prop x k) (prop u k)) eqn:E; [ | reflexivity ].
  assert ((l1 ++ u :: l2) !! length l1 = Some u) as Hmid
    by (rewrite lookup_app_r, Nat.sub_diag by lia; reflexivity).
  apply in_app_or in Hx as [Hx | Hx];
    apply list_elem_of_In, list_elem_of_lookup_1 in Hx as [j Hj].
  - assert (j < length l1)%nat as Hlt by (eapply lookup_lt_Some; eauto).
    assert (j = length l1); [ | lia ].
    apply (Hu j (length l1) x u); auto.
    now rewrite lookup_app_l.
  - assert (S (length l1 + j) = length l1); [ | lia ].
    apply (Hu (S (length l1 + j)) (length l1) x u); auto.
    rewrite lookup_app_r by lia.
    replace (S (length l1 + j) - length l1)%nat with (S j) by lia. exact Hj.
Qed.

(** X20: when an admin's deletion is answered 200 in a well-formed
    store, one record is gone and with it the account: [GET /me] with a
    token of that user is answered 404, and a login with the deleted
    record's email is answered 401 like any unknown email. *)
Theorem deleted_user_is_gone (P : platform) (req : request) (e : env)
    (st : store) :
  let id := prop (req_params req) "id" in
  let st' := snd (delete_user_by_id req e st) in
  store_ok st ->
  status (fst (delete_user_by_id req e st)) = VNum 200 ->
  exists u,
    In u (users st) /\ User.has_id id u = true /\
    user_count st' = user_count st - 1 /\
    (forall req' e',
       parseInt (prop (req_user req') "userId") = parseInt id ->
       get_me req' e' st'
       = (send 404 (error_body "User not found" "User profile not found"), st')) /\
    (forall req' e' a,
       prop u "email" = VStr a ->
       prop (req_body req') "email" = VStr a ->
       post_login P req' e' st' = (invalid_credentials, st')).
Proof.
  intros id st' Hok. subst st'. unfold delete_user_by_id. fold id.
  destruct (not_admin req); [ discriminate | ].
  destruct (strict_eq _ _); [ discriminate | ].
  unfold User.deleteById.
  destruct (findIndex (User.has_id id) (users st)) as [i0 | ] eqn:Hi0;
    [ | discriminate ].
  intros _. cbn [snd].
  destruct (findIndex_Some _ _ _ Hi0) as (l1 & u & l2 & Hl & <- & Hu & Hl1).
  exists u. rewrite Hl, delete_middle.
  split; [ apply in_elt | ]. split; [ exact Hu | ].
  split; [ unfold user_count; cbn [users]; rewrite Hl, !length_app; simpl; lia | ].
  split.
  - intros req' e' Hsame. unfold get_me.
    rewrite (findById_parseInt _ id) by assumption.
    unfold User.findById. cbn [users].
    rewrite find_all_false; [ reflexivity | ].
    intros x Hx. unfold User.has_id in *.
    apply strict_eq_true in Hu as Hu'. rewrite <- Hu'.
    eapply unique_elsewhere; eauto. rewrite <- Hl. apply (ok_id _ Hok).
  - intros req' e' a Ha Hbody. unfold post_login. rewrite Hbody.
    unfold User.findByEmail. cbn [users].
    rewrite find_all_false; [ reflexivity | ].
    intros x Hx. rewrite <- Ha.
    eapply unique_elsewhere; eauto. rewrite <- Hl. apply (ok_email _ Hok).
Qed.

Lemma scenario_store_ok : store_ok scenario_store.
Proof.
  apply (served_in_turn_ok stub_platform "boot").
  apply (turn_auth stub_platform "boot" (initial_store "boot") POST ["register"]
           (as_user ∅ "" alice_body) an_env
           (fst (post_register stub_platform (as_user ∅ "" alice_body) an_env
                   (initial_store "boot")))).
  - apply turn_boot.
  - reflexivity.
Qed.

Lemma deleted_user_is_gone_witness :
  exists u,
    In u (users scenario_store) /\ User.has_id (VStr "2") u = true /\
    user_count (snd (delete_user_by_id (as_user admin_claims "2" ∅) an_env
                       scenario_store)) = 1.
Proof.
  destruct (deleted_user_is_gone stub_platform (as_user admin_claims "2" ∅)
              an_env scenario_store scenario_store_ok eq_refl)
    as (u & H1 & H2 & H3 & _).
  exists u. repeat split; assumption.
Defined.

(** ** PUT /users/:id on an id no record has *)



(** ** The scenario store is one the server reaches *)

Lemma stats_add_up_witness :
  roles_ok scenario_store /\
  exists a r : Z,
    stat scenario_store "totalUsers" = VNum (user_count scenario_store) /\
    stat scenario_store "adminUsers" = VNum a /\
    stat scenario_store "regularUsers" = VNum r /\
    a + r = user_count scenario_store /\
    0 <= a <= 1.
Proof.
  apply (stats_add_up stub_platform "boot" scenario_store scenario_reachable).
Defined.

Lemma ids_never_reused_witness : unique_by "id" (users scenario_store).
Proof.
  apply (ids_never_reused stub_platform "boot" scenario_store scenario_reachable).
Defined.

(** ** Ids, pages and paths as JavaScript and Express read them *)

Example parseInt_skips_nbsp :
  parseInt (VStr nbsp_two) = VNum 2 /\ parseInt (VStr ls_two) = VNum 2.
Proof. split; reflexivity. Qed.

Example parseInt_rounds :
  parseInt (VStr "9007199254740993") = VNum 9007199254740992 /\
  parseInt (VStr "9007199254740995") = VNum 9007199254740996 /\
  parseInt (VStr "9007199254740992") = VNum 9007199254740992 /\
  parseInt (VStr "-9007199254740993") = VNum (-9007199254740992).
Proof. repeat split; reflexivity. Qed.

(** Alice reaches her own record under the id U+00A0 "2"; an admin
    deletes it under that id. *)
Example nbsp_id_is_alice :
  status (fst (get_user_by_id (as_user alice_claims nbsp_two ∅) an_env
                 scenario_store)) = VNum 200 /\
  status (fst (delete_user_by_id (as_user admin_claims nbsp_two ∅) an_env
                 scenario_store)) = VNum 200 /\
  snd (delete_user_by_id (as_user admin_claims nbsp_two ∅) an_env
         scenario_store)
  = {| users := users (initial_store "boot"); nextUserId := 3 |}.
Proof. repeat split; reflexivity. Qed.

Example nbsp_page_is_second :
  body_field (fst (get_users (with_query nbsp_page_query
                                (as_user admin_claims "" ∅))
                     an_env scenario_store)) "users"
  = VArr (VObj <$> spec_page (User.findAll scenario_store) 2 1).
Proof. reflexivity. Qed.

Example big_page_reported_rounded :
  pagination_field (fst (get_users (with_query big_page_query
                                      (as_user admin_claims "" ∅))
                           an_env scenario_store)) "page"
  = VNum 9007199254740992.
Proof. reflexivity. Qed.

(** [POST /api/auth/REGISTER] is the register route. *)
Example register_in_capitals :
  dispatch (auth_router stub_platform) POST ["REGISTER"]
    (as_user ∅ "" alice_body) an_env (initial_store "boot")
  = Some (post_register stub_platform (as_user ∅ "" alice_body) an_env
            (initial_store "boot")) /\
  snd (post_register stub_platform (as_user ∅ "" alice_body) an_env
         (initial_store "boot")) = scenario_store.
Proof. split; reflexivity. Qed.
